(** * Keyword classifier ([pages/1_app.py]): dictionary validation and
      whole-word phrase matching

    The development embeds the two functions of the page that carry its
    contract, [parse_dictionaries] and [classify], together with the loop
    that classifies the rows of an uploaded table.

    Conventions of the embedding.
    - A Python [str] is a sequence of code points.  The model covers the
      code points below 256 (ASCII and the Latin-1 supplement), which is
      what Rocq's [ascii] holds; on that range [str.lower], [str.isspace],
      [repr] and the regular expression class [\w] are written out in full
      below.
    - A Python [dict] keyed by strings is a [gmap string _]; a Python [set]
      of strings is a [gset string].  The order in which a set is iterated
      is a parameter ([SetIter]).
    - Exceptions are results of the error monad [exc]; [st.stop()] ends a
      run of the page ([Stop], [Halted]).
    - [json.loads] and [pd.read_csv] are library code: the first is a
      parameter of the page, the second is represented by what it returns.
    - Of [re], the fragment the page builds patterns in is modelled: literal
      characters, escaped characters and [\b]. *)

From Stdlib Require Import ZArith NArith Ascii.
From Stdlib Require String.
From stdpp Require Import base option list gmap strings fin_maps fin_sets pretty sorting.

(** ** Characters *)

Module Char.

Definition code (c : ascii) : N := N_of_ascii c.

Definition in_range (lo hi : N) (c : ascii) : bool :=
  ((lo <=? code c) && (code c <=? hi))%N.

Definition is_ascii_digit (c : ascii) : bool := in_range 48 57 c.
Definition is_ascii_upper (c : ascii) : bool := in_range 65 90 c.
Definition is_ascii_lower (c : ascii) : bool := in_range 97 122 c.
Definition is_ascii_letter (c : ascii) : bool :=
  is_ascii_upper c || is_ascii_lower c.

(** Upper-case letters of Latin-1: A-Z, and U+00C0..U+00DE without the
    multiplication sign U+00D7. *)
Definition is_upper (c : ascii) : bool :=
  is_ascii_upper c || (in_range 192 222 c && negb (code c =? 215)%N).

(** [str.lower] on one code point: every upper-case letter of the range
    has its lower-case partner 32 places further; nothing else moves. *)
Definition lower (c : ascii) : ascii :=
  if is_upper c then ascii_of_N (code c + 32) else c.

(** Letters of the Latin-1 supplement: the ordinal indicators U+00AA and
    U+00BA, the micro sign U+00B5, and U+00C0..U+00FF without the
    multiplication and division signs U+00D7, U+00F7. *)
Definition is_latin1_letter (c : ascii) : bool :=
  (code c =? 170)%N || (code c =? 181)%N || (code c =? 186)%N
  || (in_range 192 255 c && negb (code c =? 215)%N && negb (code c =? 247)%N).

(** Numeric characters of the Latin-1 supplement: superscripts two, three
    and one (U+00B2, U+00B3, U+00B9), and the fractions U+00BC..U+00BE. *)
Definition is_latin1_numeric (c : ascii) : bool :=
  (code c =? 178)%N || (code c =? 179)%N || (code c =? 185)%N
  || in_range 188 190 c.

(** The class [\w] of [re] on [str] patterns: alphanumeric, or the
    underscore. *)
Definition is_word (c : ascii) : bool :=
  is_ascii_digit c || is_ascii_letter c || (code c =? 95)%N
  || is_latin1_letter c || is_latin1_numeric c.

(** [str.isspace] on one code point. *)
Definition is_space (c : ascii) : bool :=
  in_range 9 13 c || in_range 28 32 c || (code c =? 133)%N || (code c =? 160)%N.

(** [str.isprintable] on one code point, as [repr] uses it. *)
Definition is_printable (c : ascii) : bool :=
  (in_range 32 126 c) || (in_range 161 255 c && negb (code c =? 173)%N).

End Char.

(** ** Strings *)

(** [str.lower()] *)
Fixpoint py_lower (s : string) : string :=
  match s with
  | EmptyString => EmptyString
  | String c s' => String (Char.lower c) (py_lower s')
  end.

(** [sep.join(parts)] *)
Fixpoint join (sep : string) (parts : list string) : string :=
  match parts with
  | [] => ""
  | [p] => p
  | p :: ps => p +:+ sep +:+ join sep ps
  end.

Definition hex_digit (n : N) : ascii :=
  if (n <? 10)%N then ascii_of_N (48 + n) else ascii_of_N (87 + n).

(** The two lower-case hexadecimal digits of [\xhh]. *)
Definition hex2 (c : ascii) : string :=
  String (hex_digit (Char.code c / 16)) (String (hex_digit (Char.code c mod 16)) "").

Definition squote : ascii := "'"%char.
Definition dquote : ascii := "034"%char.
Definition backslash : ascii := "\"%char.
Definition char_tab : ascii := "009"%char.
Definition char_nl : ascii := "010"%char.
Definition char_vt : ascii := "011"%char.
Definition char_ff : ascii := "012"%char.
Definition char_cr : ascii := "013"%char.

Fixpoint contains_char (c : ascii) (s : string) : bool :=
  match s with
  | EmptyString => false
  | String d s' => Ascii.eqb c d || contains_char c s'
  end.

(** One character of [repr(s)] for a string [s] quoted with [quote]. *)
Definition repr_char (quote c : ascii) : string :=
  if Ascii.eqb c quote || Ascii.eqb c backslash then String backslash (String c "")
  else if Ascii.eqb c char_tab then "\t"
  else if Ascii.eqb c char_nl then "\n"
  else if Ascii.eqb c char_cr then "\r"
  else if Char.is_printable c then String c ""
  else "\x" +:+ hex2 c.

Fixpoint repr_chars (quote : ascii) (s : string) : string :=
  match s with
  | EmptyString => EmptyString
  | String c s' => repr_char quote c +:+ repr_chars quote s'
  end.

(** [repr(s)] for a string: single quotes, unless the string has a single
    quote and no double quote. *)
Definition str_repr (s : string) : string :=
  let quote :=
    if contains_char squote s && negb (contains_char dquote s)
    then dquote else squote in
  String quote (repr_chars quote s) +:+ String quote "".

#[local] Set Warnings "-register-all".

(** ** Python values

    The values [json.loads] can return and the scalars a table column can
    hold.  A float is carried as the text [float.__repr__] gives it ([nan]
    for a missing cell); nothing here computes with floats.  A dict is the
    list of its items in insertion order; its keys are distinct. *)
Inductive pyval : Type :=
  | PNone
  | PBool (b : bool)
  | PInt (z : Z)
  | PFloat (repr : string)
  | PStr (s : string)
  | PList (l : list pyval)
  | PDict (items : list (string * pyval)).

(** [repr(v)] *)
Fixpoint py_repr (v : pyval) : string :=
  match v with
  | PNone => "None"
  | PBool true => "True"
  | PBool false => "False"
  | PInt z => pretty z
  | PFloat r => r
  | PStr s => str_repr s
  | PList l => "[" +:+ join ", " (map py_repr l) +:+ "]"
  | PDict items =>
      "{" +:+ join ", " (map (fun kv => str_repr (fst kv) +:+ ": " +:+ py_repr (snd kv)) items)
      +:+ "}"
  end.

(** [str(v)]: a string is itself, anything else is its [repr]. *)
Definition py_str (v : pyval) : string :=
  match v with
  | PStr s => s
  | _ => py_repr v
  end.

(** ** Exceptions

    What the page's code can raise, and the monad that threads it. *)
Inductive exn : Type :=
  | JSONDecodeError   (* json.loads rejects the text *)
  | AttributeError    (* raw.items() on a value that is not a dict *)
  | TypeError         (* iterating a value that is not iterable *)
  | PatternError.     (* a pattern that is more than literals and \b *)

Inductive exc (A : Type) : Type :=
  | Ret (a : A)
  | Raise (e : exn).
Arguments Ret {A} a.
Arguments Raise {A} e.

Definition bind {A B} (m : exc A) (k : A -> exc B) : exc B :=
  match m with
  | Ret a => k a
  | Raise e => Raise e
  end.

Notation "'do' x <~ m ; k" := (bind m (fun x => k))
  (at level 10, x name, m at level 100, k at level 200).

(** ** The fragment of [re] the page uses

    [classify] only ever builds patterns of the form [\b] + escaped phrase +
    [\b].  A pattern is parsed into a sequence of nodes; a pattern with any
    syntax beyond literal characters and [\b] is not given a meaning here
    and raises [PatternError] (Python would either reject it or read its
    metacharacters as operators). *)
Module Re.

Inductive node : Type :=
  | AtBoundary            (* \b *)
  | Literal (c : ascii).

(** The characters [re.escape] puts a backslash in front of. *)
Definition escaped_chars : string :=
  "()[]{}?*+-|^$\.&~# "
  +:+ String char_tab (String char_nl (String char_cr (String char_vt (String char_ff "")))).

Definition is_escaped (c : ascii) : bool := contains_char c escaped_chars.

(** [re.escape(pattern)] *)
Fixpoint escape (p : string) : string :=
  match p with
  | EmptyString => EmptyString
  | String c p' =>
      if is_escaped c then String backslash (String c (escape p'))
      else String c (escape p')
  end.

(** The characters the pattern parser reads as operators. *)
Definition special_chars : string := ".\[{()*+?^$|".

Definition is_special (c : ascii) : bool := contains_char c special_chars.

(** Pattern parser, on the fragment: [\b] is the boundary assertion, a
    backslash before a character that is no ASCII letter or digit makes
    that character a literal, and a character that is no operator is a
    literal. *)
Fixpoint parse (pat : string) : exc (list node) :=
  match pat with
  | EmptyString => Ret []
  | String c rest =>
      if Ascii.eqb c backslash then
        match rest with
        | EmptyString => Raise PatternError
        | String d rest' =>
            if Ascii.eqb d "b" then
              do ns <~ parse rest'; Ret (AtBoundary :: ns)
            else if Char.is_ascii_letter d || Char.is_ascii_digit d then
              Raise PatternError
            else
              do ns <~ parse rest'; Ret (Literal d :: ns)
        end
      else if is_special c then Raise PatternError
      else do ns <~ parse rest; Ret (Literal c :: ns)
  end.

Definition word_before (prev : option ascii) : bool :=
  match prev with
  | Some c => Char.is_word c
  | None => false
  end.

Definition word_here (rest : string) : bool :=
  match rest with
  | String c _ => Char.is_word c
  | EmptyString => false
  end.

(** [\b] holds between [prev] and [rest] when exactly one side is a word
    character; the start and the end of the text count as non-word. *)
Definition at_boundary (prev : option ascii) (rest : string) : bool :=
  xorb (word_before prev) (word_here rest).

(** Match the nodes at the current position: [prev] is the character just
    before it, [rest] the text from it on. *)
Fixpoint match_here (ns : list node) (prev : option ascii) (rest : string) : bool :=
  match ns with
  | [] => true
  | AtBoundary :: ns' => at_boundary prev rest && match_here ns' prev rest
  | Literal c :: ns' =>
      match rest with
      | EmptyString => false
      | String d rest' => Ascii.eqb c d && match_here ns' (Some d) rest'
      end
  end.

(** Try every position, left to right. *)
Fixpoint search_from (ns : list node) (prev : option ascii) (rest : string) : bool :=
  match_here ns prev rest
  || match rest with
     | EmptyString => false
     | String d rest' => search_from ns (Some d) rest'
     end.

(** [bool(re.search(pattern, text))] *)
Definition search (pattern text : string) : exc bool :=
  do ns <~ parse pattern; Ret (search_from ns None text).

End Re.

(** ** The page's helpers *)

(** [_word.format(s)] with [_word = r"\b{}\b"]. *)
Definition _word (s : string) : string := "\b" +:+ s +:+ "\b".

(** [any(f(x) for x in xs)]: the generator is consumed in order and the
    first true stops it; an exception raised on the way propagates. *)
Fixpoint py_any {A} (f : A -> exc bool) (xs : list A) : exc bool :=
  match xs with
  | [] => Ret false
  | x :: xs' => do b <~ f x; if b then Ret true else py_any f xs'
  end.

(** [{k: f(k, v) for k, v in d.items()}]: the entries are visited one
    after the other, each value is computed and stored under its key. *)
Definition dict_comprehension {A B} (f : string -> A -> exc B) (d : gmap string A)
  : exc (gmap string B) :=
  map_fold (fun k v acc => do out <~ acc; do b <~ f k v; Ret (<[k := b]> out)) (Ret ∅) d.

(** The order in which Python iterates over a set of strings is not fixed
    by the language (string hashes are salted per process): it is some
    arrangement of the set's elements. *)
Class SetIter : Type := {
  set_iter : gset string -> list string;
  set_iter_perm : forall s, set_iter s ≡ₚ elements s
}.

#[export] Instance elements_iter : SetIter :=
  {| set_iter := elements; set_iter_perm := fun s => reflexivity (elements s) |}.

Definition reverse_iter : SetIter :=
  {| set_iter := fun s => reverse (elements s);
     set_iter_perm := fun s => reverse_Permutation (elements s) |}.

(** The state of the loop over the rows: the flag sets appended so far, and
    the row numbers at which the progress bar was updated. *)
Record loop_state : Type := {
  flags : list (gmap string bool);
  my_bar : list nat
}.

Section Matcher.
Context `{SetIter}.

(** [classify(text, dictionaries)], lines 32-38. *)
Definition classify (text : pyval) (dictionaries : gmap string (gset string))
  : exc (gmap string bool) :=
  let text := py_lower (py_str text) in
  dict_comprehension
    (fun cat phrases =>
       py_any (fun p => Re.search (_word (Re.escape p)) text) (set_iter phrases))
    dictionaries.

(** The loop of lines 117-122, from row [idx] on. *)
Fixpoint classify_rows (idx total_rows : nat) (column : list pyval)
    (user_dictionaries : gmap string (gset string)) (st : loop_state) : exc loop_state :=
  match column with
  | [] => Ret st
  | statement :: rest =>
      do fs <~ classify statement user_dictionaries;
      let shown :=
        if ((1000 <=? total_rows) && (idx mod (Nat.max (total_rows / 100) 1) =? 0))%nat
        then my_bar st ++ [idx] else my_bar st in
      classify_rows (S idx) total_rows rest user_dictionaries
        {| flags := flags st ++ [fs]; my_bar := shown |}
  end.

(** [flags] after the loop, started from [flags = []]. *)
Definition classify_column (column : list pyval)
    (user_dictionaries : gmap string (gset string)) : exc (list (gmap string bool)) :=
  do st <~ classify_rows 0 (length column) column user_dictionaries
             {| flags := []; my_bar := [] |};
  Ret (flags st).

End Matcher.

(** ** The validator *)

(** [raw.items()] *)
Definition py_items (raw : pyval) : exc (list (string * pyval)) :=
  match raw with
  | PDict items => Ret items
  | _ => Raise AttributeError
  end.

(** [for x in v]: a list yields its elements, a string its characters, a
    dict its keys; nothing else is iterable. *)
Definition py_iter (v : pyval) : exc (list pyval) :=
  match v with
  | PList l => Ret l
  | PStr s => Ret (map (fun c => PStr (String c "")) (String.list_ascii_of_string s))
  | PDict items => Ret (map (fun kv => PStr (fst kv)) items)
  | _ => Raise TypeError
  end.

(** [{str(x).lower() for x in v}] *)
Definition phrase_set (v : pyval) : exc (gset string) :=
  do xs <~ py_iter v; Ret (list_to_set (map (fun x => py_lower (py_str x)) xs)).

(** [{k: {...} for k, v in items}], built entry by entry onto [acc]; a
    later entry replaces an earlier one of the same key. *)
Fixpoint normalize_items (items : list (string * pyval)) (acc : gmap string (gset string))
  : exc (gmap string (gset string)) :=
  match items with
  | [] => Ret acc
  | (k, v) :: rest => do ps <~ phrase_set v; normalize_items rest (<[k := ps]> acc)
  end.

(** Line 93. *)
Definition normalize (raw : pyval) : exc (gmap string (gset string)) :=
  do items <~ py_items raw; normalize_items items ∅.

(** What the page shows when it halts itself with [st.stop()]. *)
Inductive message : Type :=
  | InvalidJSON (e : exn)
  | UnableToReadCSV
  | ColumnNotFound.

Inductive script (A : Type) : Type :=
  | Continue (a : A)
  | Stop (shown : message).
Arguments Continue {A} a.
Arguments Stop {A} shown.

(** The upload widget: no file, or a file that [pd.read_csv] either rejects
    ([None]) or reads into named columns. *)
Inductive upload : Type :=
  | NotUploaded
  | Uploaded (df : option (gmap string (list pyval))).

(** What a run of the page ends in. *)
Inductive page : Type :=
  | Halted (shown : message)
  | AwaitingUpload
  | Classified (flags : list (gmap string bool))
  | Crashed (e : exn).

Section Page.
(** [json.loads]: [None] when it raises. *)
Variable json_loads : string -> option pyval.
Context `{SetIter}.

(** [parse_dictionaries(json_str)], lines 90-96: any exception ends the
    run with an error message. *)
Definition parse_dictionaries (json_str : string) : script (gmap string (gset string)) :=
  let body :=
    do raw <~ (match json_loads json_str with
               | Some raw => Ret raw
               | None => Raise JSONDecodeError
               end);
    normalize raw in
  match body with
  | Ret d => Continue d
  | Raise e => Stop (InvalidJSON e)
  end.

(** The page from line 98 on. *)
Definition run (dict_json : string) (uploaded_file : upload) (statement_col : string) : page :=
  match parse_dictionaries dict_json with
  | Stop shown => Halted shown
  | Continue user_dictionaries =>
      match uploaded_file with
      | NotUploaded => AwaitingUpload
      | Uploaded None => Halted UnableToReadCSV
      | Uploaded (Some df) =>
          match df !! statement_col with
          | None => Halted ColumnNotFound
          | Some column =>
              match classify_column column user_dictionaries with
              | Ret flags => Classified flags
              | Raise e => Crashed e
              end
          end
      end
  end.

End Page.

(** [get_default_dictionaries()], lines 13-28. *)
Definition get_default_dictionaries : gmap string (gset string) :=
  {[ "urgency_marketing" :=
       {[ "limited"; "limited time"; "limited run"; "limited edition"; "order now";
          "last chance"; "hurry"; "while supplies last"; "before they're gone";
          "selling out"; "selling fast"; "act now"; "don't wait"; "today only";
          "expires soon"; "final hours"; "almost gone" ]};
     "exclusive_marketing" :=
       {[ "exclusive"; "exclusively"; "exclusive offer"; "exclusive deal";
          "members only"; "vip"; "special access"; "invitation only";
          "premium"; "privileged"; "limited access"; "select customers";
          "insider"; "private sale"; "early access" ]} ]}.

(** ** Vocabulary of the statements

    Nothing below is called by the page; these definitions say what the
    theorems are about. *)
Module Vocabulary.
Import Re.

(** The nodes of a phrase read literally. *)
Fixpoint literals (p : string) : list node :=
  match p with
  | EmptyString => []
  | String c p' => Literal c :: literals p'
  end.

(** The character just before the position reached after reading [s],
    when [prev] was just before [s]. *)
Fixpoint last_of (prev : option ascii) (s : string) : option ascii :=
  match s with
  | EmptyString => prev
  | String c s' => last_of (Some c) s'
  end.

(** What [re.search] decides for the pattern of phrase [p]. *)
Definition phrase_matches (text p : string) : bool :=
  search_from (AtBoundary :: literals p ++ [AtBoundary]) None text.

(** The flag of one category: some phrase of the set matches. *)
Definition flag (text : string) (phrases : gset string) : bool :=
  existsb (phrase_matches text) (elements phrases).

(** The flags of one record. *)
Definition flags_of (text : pyval) (dictionaries : gmap string (gset string))
  : gmap string bool :=
  flag (py_lower (py_str text)) <$> dictionaries.

Definition starts_with_word (s : string) : bool := word_here s.
Definition ends_with_word (s : string) : bool := word_before (last_of None s).

(** Whole-word match as the glossary words it: the phrase stands in the
    text, and neither the character before its first character nor the
    character after its last one is a word character. *)
Definition whole_word_occurrence (p text : string) : Prop :=
  exists pre post,
    text = pre +:+ p +:+ post
    /\ ends_with_word pre = false /\ starts_with_word post = false.

(** [s] without the prefix [p], when it has it. *)
Fixpoint strip_prefix (p s : string) : option string :=
  match p, s with
  | EmptyString, _ => Some s
  | String c p', String d s' => if Ascii.eqb c d then strip_prefix p' s' else None
  | String _ _, EmptyString => None
  end.

(** The same, as a search that can be run: try every position. *)
Fixpoint whole_word_from (p : string) (prev : option ascii) (rest : string) : bool :=
  (negb (word_before prev)
   && match strip_prefix p rest with
      | Some post => negb (word_here post)
      | None => false
      end)
  || match rest with
     | EmptyString => false
     | String d rest' => whole_word_from p (Some d) rest'
     end.

Definition whole_word_search (p text : string) : bool := whole_word_from p None text.

(** [str.strip()]: white space is taken off both ends. *)
Fixpoint lstrip (s : string) : string :=
  match s with
  | EmptyString => EmptyString
  | String c s' => if Char.is_space c then lstrip s' else s
  end.

Fixpoint rstrip (s : string) : string :=
  match s with
  | EmptyString => EmptyString
  | String c s' =>
      match rstrip s' with
      | EmptyString => if Char.is_space c then EmptyString else String c EmptyString
      | r => String c r
      end
  end.

Definition py_strip (s : string) : string := rstrip (lstrip s).

Fixpoint contains_upper (s : string) : bool :=
  match s with
  | EmptyString => false
  | String c s' => Char.is_upper c || contains_upper s'
  end.

(** The canonical form the specification gives phrases: lowercased and
    trimmed. *)
Definition lowercased (p : string) : Prop := py_lower p = p.
Definition trimmed (p : string) : Prop := py_strip p = p.







(** The shape the specification expects of a dictionary: an object whose
    values are lists of strings. *)
Definition is_str (v : pyval) : bool :=
  match v with PStr _ => true | _ => false end.

Definition is_list_of_str (v : pyval) : bool :=
  match v with PList l => forallb is_str l | _ => false end.

Definition expected_shape (raw : pyval) : bool :=
  match raw with
  | PDict items => forallb (fun kv => is_list_of_str (snd kv)) items
  | _ => false
  end.

(** What the code needs of a dictionary: an object whose values can be
    iterated. *)
Definition iterable (v : pyval) : bool :=
  match v with PList _ | PStr _ | PDict _ => true | _ => false end.

Definition accepted (raw : pyval) : bool :=
  match raw with
  | PDict items => forallb (fun kv => iterable (snd kv)) items
  | _ => false
  end.


(** The dict with the given items, a later entry of a key replacing an
    earlier one. *)
Definition dict_of_items (items : list (string * pyval)) : gmap string pyval :=
  list_to_map (reverse items).

(** The elements iteration yields, for an iterable value. *)
Definition elements_of (v : pyval) : list pyval :=
  match py_iter v with Ret xs => xs | Raise _ => [] end.

Definition phrases_of (v : pyval) : gset string :=
  list_to_set (map (fun x => py_lower (py_str x)) (elements_of v)).

(** A [json.loads] that knows one text. *)
Definition loads_only (text : string) (value : pyval) : string -> option pyval :=
  fun s => if String.eqb s text then Some value else None.

(** A string between double quotes. *)
Definition quoted (s : string) : string := String dquote s +:+ String dquote "".

(** The dictionaries of the specification's examples. *)
Definition vip_dictionary : gmap string (gset string) :=
  {[ "exclusive_marketing" := {[ "vip" ]} ]}.


Definition percent_dictionary : gmap string (gset string) :=
  {[ "urgency_marketing" := {[ "50% off" ]} ]}.

(** JSON texts, and the values [json.loads] makes of them. *)
Definition untrimmed_json : string :=
  "{" +:+ quoted "urgency_marketing" +:+ ": [" +:+ quoted " Hurry " +:+ "]}".
Definition untrimmed_value : pyval :=
  PDict [("urgency_marketing", PList [PStr " Hurry "])].

Definition string_valued_json : string :=
  "{" +:+ quoted "exclusive_marketing" +:+ ": " +:+ quoted "vip" +:+ "}".
Definition string_valued_value : pyval :=
  PDict [("exclusive_marketing", PStr "vip")].

Definition scenario_json : string :=
  "{" +:+ quoted "urgency_marketing" +:+ ": [" +:+ quoted "limited time" +:+ ", "
  +:+ quoted "hurry" +:+ "], " +:+ quoted "exclusive_marketing" +:+ ": ["
  +:+ quoted "vip" +:+ ", " +:+ quoted "exclusive" +:+ "]}".
Definition scenario_value : pyval :=
  PDict [("urgency_marketing", PList [PStr "limited time"; PStr "hurry"]);
         ("exclusive_marketing", PList [PStr "vip"; PStr "exclusive"])].
Definition scenario_dictionary : gmap string (gset string) :=
  {[ "urgency_marketing" := {[ "limited time"; "hurry" ]};
     "exclusive_marketing" := {[ "vip"; "exclusive" ]} ]}.
Definition scenario_records : list pyval :=
  [PStr "Limited Time Offer!"; PStr "Join our VIP club"; PStr "Nothing special here"].
Definition scenario_flags : list (gmap string bool) :=
  [ {[ "urgency_marketing" := true; "exclusive_marketing" := false ]};
    {[ "urgency_marketing" := false; "exclusive_marketing" := true ]};
    {[ "urgency_marketing" := false; "exclusive_marketing" := false ]} ].

End Vocabulary.

(** ** The dictionary text of the first run *)

(** [sorted(xs)] on strings: ascending by code points. *)
Definition py_sorted (xs : list string) : list string := merge_sort String.le xs.

Section Session.
(** [json.dumps(_, indent=2, ensure_ascii=False)] *)
Variable json_dumps : pyval -> string.
Context `{SetIter}.

(** [{k: sorted(list(v)) for k, v in d.items()}], line 78. *)
Definition sorted_lists (d : gmap string (gset string)) : pyval :=
  PDict (map (fun kv => (fst kv, PList (map PStr (py_sorted (set_iter (snd kv))))))
             (map_to_list d)).

(** [st.session_state["dictionary_json"]] as lines 76-81 set it. *)
Definition initial_dictionary_json : string :=
  json_dumps (sorted_lists get_default_dictionaries).

End Session.

(** ** More vocabulary *)
Module Words.
Import Re Vocabulary.

(** Some character of the string is a word character. *)
Fixpoint contains_word (s : string) : bool :=
  match s with
  | EmptyString => false
  | String c s' => Char.is_word c || contains_word s'
  end.

(** The characters of a string, each as a string of its own. *)
Definition characters (s : string) : list string :=
  map (fun c => String c EmptyString) (String.list_ascii_of_string s).

(** The rows at which the loop updates the progress bar of a table of
    [total_rows] rows. *)
Definition bar_rows (total_rows : nat) : list nat :=
  if (1000 <=? total_rows)%nat
  then List.filter (fun idx => (idx mod (Nat.max (total_rows / 100) 1) =? 0)%nat)
                   (seq 0 total_rows)
  else [].

End Words.

(** * Properties *)

(** ** Characters and strings *)

Ltac each_char c :=
  destruct c as [[] [] [] [] [] [] [] []]; vm_compute; try reflexivity; try discriminate; auto.

Lemma lower_idempotent (c : ascii) : Char.lower (Char.lower c) = Char.lower c.
Proof. each_char c. Qed.

Lemma lower_not_upper (c : ascii) : Char.is_upper (Char.lower c) = false.
Proof. each_char c. Qed.

Lemma py_lower_idempotent (s : string) : py_lower (py_lower s) = py_lower s.
Proof.
  induction s as [|c s IH]; simpl; [reflexivity|].
  now rewrite lower_idempotent, IH.
Qed.

Lemma py_lower_no_upper (s : string) : Vocabulary.contains_upper (py_lower s) = false.
Proof.
  induction s as [|c s IH]; [reflexivity|].
  cbn [py_lower Vocabulary.contains_upper]. now rewrite lower_not_upper, IH.
Qed.

Lemma string_app_cons (x : ascii) (a b : string) : String x a +:+ b = String x (a +:+ b).
Proof. reflexivity. Qed.

Lemma string_app_nil_l (a : string) : "" +:+ a = a.
Proof. reflexivity. Qed.

Lemma string_app_assoc (a b c : string) : (a +:+ b) +:+ c = a +:+ b +:+ c.
Proof.
  induction a as [|x a IH]; [reflexivity|].
  now rewrite !string_app_cons, IH.
Qed.

Lemma string_app_nil_r (a : string) : a +:+ "" = a.
Proof.
  induction a as [|x a IH]; [reflexivity|].
  now rewrite string_app_cons, IH.
Qed.

(** ** Escaping makes every phrase a literal pattern *)

Module ReFacts.
Import Re Vocabulary.

Lemma escaped_is_literal (c : ascii) :
  is_escaped c = true ->
  Ascii.eqb c "b" = false /\ Char.is_ascii_letter c || Char.is_ascii_digit c = false.
Proof. each_char c. Qed.

Lemma unescaped_is_plain (c : ascii) :
  is_escaped c = false -> Ascii.eqb c backslash = false /\ is_special c = false.
Proof. each_char c. Qed.

Lemma parse_escape_app (p rest : string) :
  parse (escape p +:+ rest) = do ns <~ parse rest; Ret (literals p ++ ns).
Proof.
  induction p as [|c p IH]; cbn [escape literals].
  - rewrite string_app_nil_l. now destruct (parse rest).
  - destruct (is_escaped c) eqn:E.
    + apply escaped_is_literal in E as [Eb Ea].
      rewrite !string_app_cons. cbn [parse].
      change (Ascii.eqb backslash backslash) with true.
      cbn iota. rewrite Eb, Ea, IH. now destruct (parse rest).
    + apply unescaped_is_plain in E as [Eb Es].
      rewrite string_app_cons. cbn [parse]. rewrite Eb, Es, IH.
      now destruct (parse rest).
Qed.

(** The pattern [classify] builds for a phrase always parses, whatever
    characters the phrase has, to: boundary, the phrase's characters as
    literals, boundary. *)
Lemma parse_word_escape (p : string) :
  parse (_word (escape p)) = Ret (AtBoundary :: literals p ++ [AtBoundary]).
Proof.
  unfold _word.
  change ("\b" +:+ escape p +:+ "\b")
    with (String backslash (String "b" (escape p +:+ "\b"))).
  cbn [parse]. change (Ascii.eqb backslash backslash) with true.
  change (Ascii.eqb "b" "b") with true. cbn iota.
  now rewrite parse_escape_app.
Qed.

Lemma last_of_app (prev : option ascii) (a b : string) :
  last_of prev (a +:+ b) = last_of (last_of prev a) b.
Proof.
  revert prev. induction a as [|x a IH]; intros prev; [reflexivity|].
  rewrite string_app_cons. cbn [last_of]. apply IH.
Qed.

Lemma match_here_literals (p : string) (ns : list node) (prev : option ascii) (rest : string) :
  match_here (literals p ++ ns) prev rest = true <->
  exists post, rest = p +:+ post /\ match_here ns (last_of prev p) post = true.
Proof.
  revert prev rest. induction p as [|c p IH]; intros prev rest; cbn [literals app last_of].
  - split.
    + intros Hm. exists rest. now rewrite string_app_nil_l.
    + intros (post & -> & Hm). now rewrite string_app_nil_l.
  - cbn [match_here]. destruct rest as [|d rest].
    + split; [discriminate|]. intros (post & Hpost & _).
      rewrite string_app_cons in Hpost. discriminate.
    + rewrite andb_true_iff, IH. split.
      * intros [Hcd (post & -> & Hm)]. apply Ascii.eqb_eq in Hcd as ->.
        exists post. now rewrite string_app_cons.
      * intros (post & Hpost & Hm). rewrite string_app_cons in Hpost.
        injection Hpost as -> ->. split; [apply Ascii.eqb_refl|]. now exists post.
Qed.

Lemma search_from_spec (ns : list node) (prev : option ascii) (rest : string) :
  search_from ns prev rest = true <->
  exists pre post, rest = pre +:+ post /\ match_here ns (last_of prev pre) post = true.
Proof.
  revert prev. induction rest as [|d rest IH]; intros prev; cbn [search_from].
  - rewrite orb_false_r. split.
    + intros Hm. now exists "", "".
    + intros (pre & post & Heq & Hm).
      destruct pre; [|rewrite string_app_cons in Heq; discriminate].
      rewrite string_app_nil_l in Heq. now subst post.
  - rewrite orb_true_iff, IH. split.
    + intros [Hm | (pre & post & -> & Hm)].
      * now exists "", (String d rest).
      * exists (String d pre), post. now rewrite string_app_cons.
    + intros (pre & post & Heq & Hm). destruct pre as [|x pre].
      * left. rewrite string_app_nil_l in Heq. now subst post.
      * right. rewrite string_app_cons in Heq. injection Heq as -> ->.
        now exists pre, post.
Qed.

Lemma search_word_escape (text p : string) :
  search (_word (escape p)) text = Ret (phrase_matches text p).
Proof. unfold search. now rewrite parse_word_escape. Qed.

(** The phrase stands in the text, character for character, with a [\b]
    boundary at each of its two ends. *)
Lemma phrase_matches_spec (text p : string) :
  phrase_matches text p = true <->
  exists pre post,
    text = pre +:+ p +:+ post
    /\ at_boundary (last_of None pre) (p +:+ post) = true
    /\ at_boundary (last_of None (pre +:+ p)) post = true.
Proof.
  unfold phrase_matches. rewrite search_from_spec. split.
  - intros (pre & rest & -> & Hm). cbn [match_here] in Hm.
    apply andb_true_iff in Hm as [Hb Hm].
    apply match_here_literals in Hm as (post & -> & Hm).
    cbn [match_here] in Hm. rewrite andb_true_r in Hm.
    exists pre, post. now rewrite last_of_app.
  - intros (pre & post & -> & Hb1 & Hb2). exists pre, (p +:+ post).
    split; [reflexivity|]. cbn [match_here]. rewrite Hb1. cbn [andb].
    apply match_here_literals. exists post. split; [reflexivity|].
    cbn [match_here]. rewrite andb_true_r. now rewrite <- last_of_app.
Qed.

End ReFacts.

(** ** What [classify] computes *)

Import Vocabulary ReFacts.

Lemma flag_true (text : string) (phrases : gset string) :
  flag text phrases = true <->
  exists p, p ∈ phrases /\ phrase_matches text p = true.
Proof.
  unfold flag. rewrite existsb_exists. split.
  - intros (p & Hin & Hm). exists p. split; [|exact Hm].
    apply elem_of_elements, list_elem_of_In, Hin.
  - intros (p & Hin & Hm). exists p. split; [|exact Hm].
    apply list_elem_of_In, elem_of_elements, Hin.
Qed.

Lemma py_any_ret {A} (f : A -> exc bool) (g : A -> bool) (xs : list A) :
  (forall x, f x = Ret (g x)) -> py_any f xs = Ret (existsb g xs).
Proof.
  intros Hf. induction xs as [|x xs IH]; cbn [py_any existsb]; [reflexivity|].
  rewrite Hf. cbn [bind]. destruct (g x); [reflexivity|exact IH].
Qed.

Lemma existsb_Permutation {A} (g : A -> bool) (xs ys : list A) :
  xs ≡ₚ ys -> existsb g xs = existsb g ys.
Proof.
  induction 1 as [|x xs ys _ IH|x y xs|xs ys zs _ IH1 _ IH2]; cbn [existsb].
  - reflexivity.
  - now rewrite IH.
  - now destruct (g x), (g y).
  - now rewrite IH1.
Qed.

Lemma dict_comprehension_ret {A B} (f : string -> A -> exc B) (g : A -> B)
    (d : gmap string A) :
  (forall k v, f k v = Ret (g v)) -> dict_comprehension f d = Ret (g <$> d).
Proof.
  intros Hf. unfold dict_comprehension.
  apply (map_fold_weak_ind (fun r m => r = Ret (g <$> m))).
  - now rewrite fmap_empty.
  - intros k v m r _ ->. cbn [bind]. rewrite Hf. cbn [bind].
    now rewrite fmap_insert.
Qed.

Section MatcherFacts.
Context `{SetIter}.

(** [classify] returns, and what it returns does not depend on the order
    in which the phrase sets are iterated. *)
Lemma classify_spec (text : pyval) (dictionaries : gmap string (gset string)) :
  classify text dictionaries = Ret (flags_of text dictionaries).
Proof.
  unfold classify, flags_of. apply dict_comprehension_ret. intros _ phrases.
  rewrite (py_any_ret _ (phrase_matches (py_lower (py_str text)))).
  - unfold flag. f_equal. apply existsb_Permutation, set_iter_perm.
  - intros p. apply search_word_escape.
Qed.

Lemma classify_rows_spec (column : list pyval) (d : gmap string (gset string))
    (idx total_rows : nat) (st : loop_state) :
  exists bar,
    classify_rows idx total_rows column d st
    = Ret {| flags := flags st ++ map (fun r => flags_of r d) column; my_bar := bar |}.
Proof.
  revert idx st. induction column as [|r column IH]; intros idx st; cbn [classify_rows map].
  - exists (my_bar st). rewrite app_nil_r. now destruct st.
  - rewrite classify_spec. cbn [bind].
    match goal with |- context [classify_rows _ _ _ _ ?st'] =>
      destruct (IH (S idx) st') as [bar ->] end.
    exists bar. cbn [flags]. now rewrite <- app_assoc.
Qed.

Lemma classify_column_spec (column : list pyval) (d : gmap string (gset string)) :
  classify_column column d = Ret (map (fun r => flags_of r d) column).
Proof.
  unfold classify_column.
  destruct (classify_rows_spec column d 0 (length column) {| flags := []; my_bar := [] |})
    as [bar ->].
  reflexivity.
Qed.

End MatcherFacts.

(** ** Whole-word occurrences *)

Lemma strip_prefix_spec (p s post : string) :
  strip_prefix p s = Some post <-> s = p +:+ post.
Proof.
  revert s. induction p as [|c p IH]; intros s; cbn [strip_prefix].
  - rewrite string_app_nil_l. split; congruence.
  - destruct s as [|d s]; rewrite string_app_cons.
    + split; discriminate.
    + destruct (Ascii.eqb_spec c d) as [->|Hne].
      * rewrite IH. split; congruence.
      * split; [discriminate|]. intros Heq. injection Heq as ? ?. congruence.
Qed.

Lemma whole_word_from_spec (p : string) (prev : option ascii) (rest : string) :
  whole_word_from p prev rest = true <->
  exists pre post,
    rest = pre +:+ p +:+ post
    /\ Re.word_before (last_of prev pre) = false /\ Re.word_here post = false.
Proof.
  revert prev. induction rest as [|d rest IH]; intros prev; cbn [whole_word_from].
  - rewrite orb_false_r. split.
    + intros [Hp Hs]%andb_true_iff. apply negb_true_iff in Hp.
      destruct (strip_prefix p "") as [post|] eqn:E; [|discriminate].
      apply negb_true_iff in Hs. apply strip_prefix_spec in E.
      exists "", post. now rewrite string_app_nil_l.
    + intros (pre & post & Heq & Hb & Ha).
      destruct pre; [|rewrite string_app_cons in Heq; discriminate].
      rewrite string_app_nil_l in Heq.
      apply strip_prefix_spec in Heq. rewrite Heq.
      cbn [last_of] in Hb. now rewrite Hb, Ha.
  - rewrite orb_true_iff, IH. split.
    + intros [[Hp Hs]%andb_true_iff | (pre & post & -> & Hb & Ha)].
      * apply negb_true_iff in Hp.
        destruct (strip_prefix p (String d rest)) as [post|] eqn:E; [|discriminate].
        apply negb_true_iff in Hs. apply strip_prefix_spec in E.
        exists "", post. now rewrite string_app_nil_l.
      * exists (String d pre), post. now rewrite string_app_cons.
    + intros (pre & post & Heq & Hb & Ha). destruct pre as [|x pre].
      * left. rewrite string_app_nil_l in Heq.
        apply strip_prefix_spec in Heq. rewrite Heq.
        cbn [last_of] in Hb. now rewrite Hb, Ha.
      * right. rewrite string_app_cons in Heq. injection Heq as -> ->.
        now exists pre, post.
Qed.

Lemma whole_word_search_spec (p text : string) :
  whole_word_search p text = true <-> whole_word_occurrence p text.
Proof. apply whole_word_from_spec. Qed.

(** For a phrase that begins and ends with a word character, the two [\b]
    of the pattern say exactly that the neighbours are no word characters. *)
Lemma phrase_matches_whole_word (text p : string) :
  starts_with_word p = true -> ends_with_word p = true ->
  phrase_matches text p = true <-> whole_word_occurrence p text.
Proof.
  intros Hs He. rewrite phrase_matches_spec. unfold whole_word_occurrence.
  destruct p as [|c p]; [discriminate|].
  assert (Hb1 : forall pre post,
    Re.at_boundary (last_of None pre) (String c p +:+ post)
    = negb (ends_with_word pre)).
  { intros pre post. unfold Re.at_boundary, ends_with_word.
    rewrite string_app_cons. cbn [Re.word_here].
    unfold starts_with_word in Hs. cbn [Re.word_here] in Hs. rewrite Hs.
    now destruct (Re.word_before (last_of None pre)). }
  assert (Hb2 : forall pre post,
    Re.at_boundary (last_of None (pre +:+ String c p)) post
    = negb (starts_with_word post)).
  { intros pre post. unfold Re.at_boundary, starts_with_word.
    rewrite last_of_app. cbn [last_of]. unfold ends_with_word in He.
    cbn [last_of] in He. rewrite He. reflexivity. }
  split.
  - intros (pre & post & -> & H1 & H2). rewrite Hb1 in H1. rewrite Hb2 in H2.
    exists pre, post. now rewrite <- (negb_true_iff (ends_with_word pre)),
      <- (negb_true_iff (starts_with_word post)).
  - intros (pre & post & -> & H1 & H2). exists pre, post.
    rewrite Hb1, Hb2, H1, H2. auto.
Qed.

Section Claim1.
Context `{SetIter}.

(** C1 (as amended).  With the dictionary whose category
    exclusive_marketing holds the phrase vip, the text "invite the vipster
    crew" gets the flag false and "this is a vip event" gets true.  In
    general, for a category all of whose phrases begin and end with a
    word character, the flag is true exactly when some phrase stands in
    the lowercased text with no word character next to its first and its
    last character. *)
Theorem C1_whole_word_boundary :
  classify (PStr "invite the vipster crew") vip_dictionary
    = Ret {[ "exclusive_marketing" := false ]}
  /\ classify (PStr "this is a vip event") vip_dictionary
    = Ret {[ "exclusive_marketing" := true ]}
  /\ forall (text : pyval) (dictionaries : gmap string (gset string))
       (cat : string) (phrases : gset string),
       dictionaries !! cat = Some phrases ->
       (forall p, p ∈ phrases -> starts_with_word p = true /\ ends_with_word p = true) ->
       exists fs b,
         classify text dictionaries = Ret fs
         /\ fs !! cat = Some b
         /\ (b = true <->
             exists p, p ∈ phrases
                       /\ whole_word_occurrence p (py_lower (py_str text))).
Proof.
  split; [|split].
  - rewrite classify_spec. vm_compute. reflexivity.
  - rewrite classify_spec. vm_compute. reflexivity.
  - intros text d cat phrases Hcat Hword.
    exists (flags_of text d), (flag (py_lower (py_str text)) phrases).
    split; [apply classify_spec|]. split.
    + unfold flags_of. now rewrite lookup_fmap, Hcat.
    + rewrite flag_true. split; intros (p & Hin & Hp); exists p; (split; [exact Hin|]);
        destruct (Hword p Hin) as [Hs He];
        now apply (phrase_matches_whole_word _ p Hs He).
Qed.

End Claim1.

(** The general part of C1 at the dictionary and the text of its example. *)
Lemma C1_witness :
  vip_dictionary !! "exclusive_marketing" = Some {[ "vip" ]}
  /\ (forall p, p ∈ ({[ "vip" ]} : gset string) ->
       starts_with_word p = true /\ ends_with_word p = true)
  /\ exists fs b,
       classify (PStr "this is a vip event") vip_dictionary = Ret fs
       /\ fs !! "exclusive_marketing" = Some b
       /\ (b = true <->
           exists p, p ∈ ({[ "vip" ]} : gset string)
                     /\ whole_word_occurrence p (py_lower (py_str (PStr "this is a vip event")))).
Proof.
  assert (Hword : forall p, p ∈ ({[ "vip" ]} : gset string) ->
                            starts_with_word p = true /\ ends_with_word p = true).
  { intros p Hp. apply elem_of_singleton in Hp. subst p. split; reflexivity. }
  split; [reflexivity|]. split; [exact Hword|].
  apply (proj2 (proj2 (C1_whole_word_boundary (H := elements_iter)))).
  - reflexivity.
  - exact Hword.
Defined.

(** The claim's general sentence fails for a phrase that ends with a
    character that is no word character: the phrase 50% is found in
    "get 50%off today", where its last character touches the letter o. *)
Lemma C1_counterexample :
  classify (H := elements_iter) (PStr "get 50%off today") {[ "urgency_marketing" := {[ "50%" ]} ]}
    = Ret {[ "urgency_marketing" := true ]}
  /\ ~ whole_word_occurrence "50%" (py_lower (py_str (PStr "get 50%off today"))).
Proof.
  split.
  - rewrite classify_spec. vm_compute. reflexivity.
  - intros Hocc. apply whole_word_search_spec in Hocc. vm_compute in Hocc. discriminate.
Qed.

(** ** Key completeness, empty categories, totality *)

Lemma phrase_matches_empty_text (p : string) : phrase_matches "" p = false.
Proof. reflexivity. Qed.

Lemma flag_empty_text (phrases : gset string) : flag "" phrases = false.
Proof.
  unfold flag. induction (elements phrases) as [|p ps IH]; [reflexivity|].
  cbn [existsb]. now rewrite phrase_matches_empty_text.
Qed.

Lemma flag_empty_set (text : string) : flag text ∅ = false.
Proof. unfold flag. now rewrite elements_empty. Qed.

Section Claims.
Context `{SetIter}.

(** C3.  Whatever the record, [classify] returns a flag set whose keys are
    exactly the dictionary's category names: a category is a key whether
    its flag is true or false, and nothing else is a key. *)
Theorem C3_key_completeness (text : pyval) (dictionaries : gmap string (gset string)) :
  exists fs,
    classify text dictionaries = Ret fs
    /\ dom fs = dom dictionaries
    /\ forall cat, is_Some (fs !! cat) <-> is_Some (dictionaries !! cat).
Proof.
  exists (flags_of text dictionaries). split; [apply classify_spec|].
  unfold flags_of. split; [apply dom_fmap_L|].
  intros cat. rewrite lookup_fmap. apply fmap_is_Some.
Qed.

(** C10.  A category whose phrase set is empty gets the flag false, for
    every record. *)
Theorem C10_empty_category (text : pyval) (dictionaries : gmap string (gset string))
    (cat : string) :
  dictionaries !! cat = Some ∅ ->
  exists fs, classify text dictionaries = Ret fs /\ fs !! cat = Some false.
Proof.
  intros Hcat. exists (flags_of text dictionaries). split; [apply classify_spec|].
  unfold flags_of. now rewrite lookup_fmap, Hcat; cbn; rewrite flag_empty_set.
Qed.

(** C8.  For every dictionary and every record value, [classify] returns
    a flag set over the dictionary's categories; a flag is true exactly
    when a phrase of its category is found in the lowercased text of the
    record.  The empty string gets all flags false; None, a number or a
    missing cell get all flags false with the default dictionary, and a
    true flag when a phrase spells their text.  The loop over a column
    returns one flag set per row and the run never ends in an exception
    of the matcher. *)
Theorem C8_matcher_total (dictionaries : gmap string (gset string)) :
  (forall text : pyval,
     exists fs,
       classify text dictionaries = Ret fs
       /\ dom fs = dom dictionaries
       /\ forall cat,
            fs !! cat = Some true <->
            exists phrases p,
              dictionaries !! cat = Some phrases /\ p ∈ phrases
              /\ Re.search (_word (Re.escape p)) (py_lower (py_str text)) = Ret true)
  /\ classify (PStr "") dictionaries = Ret ((fun _ => false) <$> dictionaries)
  /\ (forall column : list pyval,
        exists flagsets,
          classify_column column dictionaries = Ret flagsets
          /\ length flagsets = length column)
  /\ (forall json_loads dict_json uploaded_file statement_col e,
        run json_loads dict_json uploaded_file statement_col <> Crashed e)
  /\ classify PNone get_default_dictionaries
     = Ret ((fun _ => false) <$> get_default_dictionaries)
  /\ classify (PInt 2024) get_default_dictionaries
     = Ret ((fun _ => false) <$> get_default_dictionaries)
  /\ classify (PFloat "nan") get_default_dictionaries
     = Ret ((fun _ => false) <$> get_default_dictionaries)
  /\ classify PNone {[ "placeholder" := {[ "none" ]} ]} = Ret {[ "placeholder" := true ]}
  /\ classify (PInt 2024) {[ "year" := {[ "2024" ]} ]} = Ret {[ "year" := true ]}.
Proof.
  split; [|split; [|split; [|split]]].
  - intros text. exists (flags_of text dictionaries).
    split; [apply classify_spec|]. unfold flags_of. split; [apply dom_fmap_L|].
    intros cat. rewrite lookup_fmap. split.
    + intros Hfs. destruct (dictionaries !! cat) as [phrases|] eqn:Hcat; [|discriminate].
      cbn in Hfs. injection Hfs as Hfs. apply flag_true in Hfs as (p & Hin & Hp).
      exists phrases, p. rewrite search_word_escape, Hp. auto.
    + intros (phrases & p & -> & Hin & Hp). cbn. f_equal. apply flag_true.
      exists p. split; [exact Hin|]. rewrite search_word_escape in Hp. congruence.
  - rewrite classify_spec. unfold flags_of. f_equal.
    apply map_fmap_ext. intros cat phrases _. apply flag_empty_text.
  - intros column. eexists. split; [apply classify_column_spec|].
    now rewrite length_map.
  - intros json_loads dict_json uploaded_file statement_col e. unfold run.
    destruct (parse_dictionaries json_loads dict_json); [|discriminate].
    destruct uploaded_file as [|[df|]]; try discriminate.
    destruct (df !! statement_col); [|discriminate].
    now rewrite classify_column_spec.
  - repeat split; rewrite classify_spec; vm_compute; reflexivity.
Qed.

End Claims.

(** C10 at a dictionary with one used and one empty category. *)
Lemma C10_witness :
  ({[ "urgency_marketing" := {[ "act now" ]}; "unused" := ∅ ]} : gmap string (gset string))
    !! "unused" = Some ∅
  /\ exists fs,
       classify (PStr "act now, VIP only")
         {[ "urgency_marketing" := {[ "act now" ]}; "unused" := ∅ ]} = Ret fs
       /\ fs !! "unused" = Some false.
Proof.
  split; [reflexivity|].
  apply (C10_empty_category (H := elements_iter)). reflexivity.
Defined.

(** ** Determinism *)

(** Two arrangements of the phrase sets, run on the same input. *)
Example orders_agree :
  set_iter (SetIter := reverse_iter) {[ "vip"; "exclusive"; "insider" ]}
    <> set_iter (SetIter := elements_iter) {[ "vip"; "exclusive"; "insider" ]}
  /\ classify (H := reverse_iter) (PStr "An EXCLUSIVE offer") get_default_dictionaries
     = classify (H := elements_iter) (PStr "An EXCLUSIVE offer") get_default_dictionaries.
Proof. split; [vm_compute; discriminate|vm_compute; reflexivity]. Qed.

(** C9.  Two invocations of the matcher on the same dictionary and the same
    records return the same sequence of flag sets, in whatever order each
    invocation happens to iterate the phrase sets and whatever its
    progress bar showed: the result is the function [flags_of] of the
    dictionary and of each record, and of nothing else. *)
Theorem C9_determinism (first second : SetIter)
    (dictionaries : gmap string (gset string)) (records : list pyval) :
  classify_column (H := first) records dictionaries
    = classify_column (H := second) records dictionaries
  /\ classify_column (H := first) records dictionaries
    = Ret (map (fun r => flags_of r dictionaries) records)
  /\ forall r, classify (H := first) r dictionaries = classify (H := second) r dictionaries.
Proof.
  split; [|split].
  - now rewrite !classify_column_spec.
  - apply classify_column_spec.
  - intros r. now rewrite !classify_spec.
Qed.

(** ** Case *)






Section Claim5.
Context `{SetIter}.


End Claim5.



(** ** Special characters *)

Section Claim4.
Context `{SetIter}.

(** C4.  With the phrase "50% off" in the dictionary, "get 50% off today"
    gets the flag true.  For every phrase the pattern that [classify]
    builds is accepted and stands for: a boundary, the characters of the
    phrase one by one, a boundary; so a search never raises, and where it
    finds the phrase, the phrase is in the text character for character.
    A dot in a phrase is a dot, not a wildcard. *)
Theorem C4_literal_special_characters :
  classify (PStr "get 50% off today") percent_dictionary
    = Ret {[ "urgency_marketing" := true ]}
  /\ (forall p : string,
        Re.parse (_word (Re.escape p))
        = Ret (Re.AtBoundary :: literals p ++ [Re.AtBoundary]))
  /\ (forall p text : string,
        exists b,
          Re.search (_word (Re.escape p)) text = Ret b
          /\ (b = true -> exists pre post, text = pre +:+ p +:+ post))
  /\ classify (PStr "abc") {[ "dotted" := {[ "a.c" ]} ]} = Ret {[ "dotted" := false ]}
  /\ classify (PStr "see a.c here") {[ "dotted" := {[ "a.c" ]} ]} = Ret {[ "dotted" := true ]}
  /\ classify (PStr "order (now") {[ "open" := {[ "order (now" ]} ]} = Ret {[ "open" := true ]}.
Proof.
  split; [|split; [|split]].
  - rewrite classify_spec. vm_compute. reflexivity.
  - apply parse_word_escape.
  - intros p text. exists (phrase_matches text p).
    split; [apply search_word_escape|].
    intros (pre & post & -> & _)%phrase_matches_spec. now exists pre, post.
  - repeat split; rewrite classify_spec; vm_compute; reflexivity.
Qed.

End Claim4.

(** ** The validator *)

Lemma phrase_set_iterable (v : pyval) :
  iterable v = true -> phrase_set v = Ret (phrases_of v).
Proof.
  unfold phrase_set, phrases_of, elements_of.
  destruct v; cbn; intros Hv; try discriminate; reflexivity.
Qed.

Lemma phrase_set_not_iterable (v : pyval) :
  iterable v = false -> phrase_set v = Raise TypeError.
Proof. destruct v; cbn; intros Hv; try discriminate; reflexivity. Qed.

Lemma normalize_items_raises (items : list (string * pyval))
    (acc : gmap string (gset string)) :
  forallb (fun kv => iterable (snd kv)) items = false ->
  normalize_items items acc = Raise TypeError.
Proof.
  revert acc. induction items as [|[k v] items IH]; intros acc; cbn [forallb normalize_items snd].
  - discriminate.
  - destruct (iterable v) eqn:Hv; cbn [andb]; intros Hrest.
    + rewrite (phrase_set_iterable v Hv). cbn [bind]. now apply IH.
    + now rewrite (phrase_set_not_iterable v Hv).
Qed.

Lemma normalize_items_returns (items : list (string * pyval))
    (acc : gmap string (gset string)) :
  forallb (fun kv => iterable (snd kv)) items = true ->
  normalize_items items acc
  = Ret ((phrases_of <$> dict_of_items items) ∪ acc).
Proof.
  unfold dict_of_items. revert acc.
  induction items as [|[k v] items IH]; intros acc; cbn [forallb normalize_items snd].
  - intros _. cbn. now rewrite fmap_empty, (left_id_L ∅ (∪)).
  - intros [Hv Hrest]%andb_true_iff.
    rewrite (phrase_set_iterable v Hv). cbn [bind]. rewrite (IH _ Hrest).
    f_equal. rewrite reverse_cons, list_to_map_app, map_fmap_union.
    rewrite <- (assoc_L (∪)). f_equal.
    cbn. rewrite insert_empty, map_fmap_singleton.
    now rewrite <- insert_union_singleton_l.
Qed.

(** [normalize] returns exactly on the accepted values. *)
Lemma normalize_accepted (raw : pyval) :
  accepted raw = true ->
  exists items, raw = PDict items
                /\ normalize raw = Ret (phrases_of <$> dict_of_items items).
Proof.
  destruct raw as [| | | | | |items]; try discriminate. cbn [accepted]. intros Hacc.
  exists items. split; [reflexivity|]. unfold normalize. cbn [py_items bind].
  rewrite (normalize_items_returns _ _ Hacc). now rewrite (right_id_L ∅ (∪)).
Qed.

Lemma normalize_not_accepted (raw : pyval) :
  accepted raw = false -> exists e, normalize raw = Raise e.
Proof.
  destruct raw as [| | | | | |items]; cbn [accepted]; intros Hacc;
    try (now exists AttributeError).
  exists TypeError. unfold normalize. cbn [py_items bind].
  now apply normalize_items_raises.
Qed.

Lemma phrases_of_lowercased (v : pyval) (p : string) :
  p ∈ phrases_of v -> lowercased p /\ contains_upper p = false.
Proof.
  unfold phrases_of. rewrite elem_of_list_to_set, list_elem_of_fmap.
  intros (x & -> & _). split; [apply py_lower_idempotent|apply py_lower_no_upper].
Qed.

Lemma phrases_of_list (l : list pyval) (p : string) :
  p ∈ phrases_of (PList l) <-> exists x, x ∈ l /\ p = py_lower (py_str x).
Proof.
  unfold phrases_of, elements_of. cbn [py_iter].
  rewrite elem_of_list_to_set, list_elem_of_fmap. split.
  - intros (x & -> & Hx). now exists x.
  - intros (x & Hx & ->). now exists x.
Qed.

Lemma expected_shape_accepted (raw : pyval) :
  expected_shape raw = true -> accepted raw = true.
Proof.
  destruct raw as [| | | | | |items]; try discriminate. cbn [expected_shape accepted].
  induction items as [|[k v] items IH]; cbn [forallb snd]; [reflexivity|].
  intros [Hv Hrest]%andb_true_iff. rewrite (IH Hrest), andb_true_r.
  now destruct v.
Qed.

Lemma parse_dictionaries_accepted (json_loads : string -> option pyval)
    (json_str : string) (items : list (string * pyval)) :
  json_loads json_str = Some (PDict items) ->
  accepted (PDict items) = true ->
  parse_dictionaries json_loads json_str = Continue (phrases_of <$> dict_of_items items).
Proof.
  intros Hload Hacc. unfold parse_dictionaries. rewrite Hload. cbn [bind].
  destruct (normalize_accepted _ Hacc) as (items' & Heq & ->).
  now injection Heq as <-.
Qed.

Section Claim6.
Variable json_loads : string -> option pyval.

(** C6 (as amended).  For a well-shaped input, an object whose values are
    lists of strings, the validator returns a dictionary over the object's
    keys in which the phrases of a category are the lowercased strings of
    its list, each once: every phrase is in lower case, and the phrases
    of a category form a set.  White space around a phrase is kept as the
    input has it. *)
Theorem C6_normalization (json_str : string) (items : list (string * pyval)) :
  json_loads json_str = Some (PDict items) ->
  expected_shape (PDict items) = true ->
  exists d,
    parse_dictionaries json_loads json_str = Continue d
    /\ dom d = dom (dict_of_items items)
    /\ forall cat phrases,
         d !! cat = Some phrases ->
         exists l,
           dict_of_items items !! cat = Some (PList l)
           /\ (forall p, p ∈ phrases <-> exists x, PStr x ∈ l /\ p = py_lower x)
           /\ (forall p, p ∈ phrases -> lowercased p /\ contains_upper p = false)
           /\ NoDup (elements phrases).
Proof.
  intros Hload Hshape. exists (phrases_of <$> dict_of_items items).
  split; [|split].
  - apply parse_dictionaries_accepted; [exact Hload|].
    now apply expected_shape_accepted.
  - apply dom_fmap_L.
  - intros cat phrases. rewrite lookup_fmap.
    destruct (dict_of_items items !! cat) as [v|] eqn:Hv; [|discriminate].
    cbn. intros [= <-].
    assert (Hin : (cat, v) ∈ items).
    { unfold dict_of_items in Hv. apply elem_of_list_to_map_2 in Hv.
      exact (proj1 (elem_of_reverse _ _) Hv). }
    cbn [expected_shape] in Hshape. rewrite forallb_forall in Hshape.
    apply list_elem_of_In, Hshape in Hin. cbn [snd] in Hin.
    destruct v as [| | | | |l|]; try discriminate. cbn [is_list_of_str] in Hin.
    rewrite forallb_forall in Hin.
    exists l. split; [reflexivity|]. split; [|split].
    + intros p. rewrite phrases_of_list. split.
      * intros (x & Hx & ->). pose proof (Hin x (proj1 (list_elem_of_In _ _) Hx)) as Hstr.
        destruct x; try discriminate. now exists s.
      * intros (x & Hx & ->). now exists (PStr x).
    + intros p. apply phrases_of_lowercased.
    + apply NoDup_elements.
Qed.

End Claim6.

(** C6 at the dictionary of the end-to-end scenario. *)
Lemma C6_witness :
  loads_only scenario_json scenario_value scenario_json
  = Some (PDict [("urgency_marketing", PList [PStr "limited time"; PStr "hurry"]);
                 ("exclusive_marketing", PList [PStr "vip"; PStr "exclusive"])])
  /\ expected_shape scenario_value = true
  /\ exists d,
    parse_dictionaries (loads_only scenario_json scenario_value) scenario_json = Continue d
    /\ dom d = dom (dict_of_items
                      [("urgency_marketing", PList [PStr "limited time"; PStr "hurry"]);
                       ("exclusive_marketing", PList [PStr "vip"; PStr "exclusive"])])
    /\ forall cat phrases,
         d !! cat = Some phrases ->
         exists l,
           dict_of_items
             [("urgency_marketing", PList [PStr "limited time"; PStr "hurry"]);
              ("exclusive_marketing", PList [PStr "vip"; PStr "exclusive"])] !! cat
           = Some (PList l)
           /\ (forall p, p ∈ phrases <-> exists x, PStr x ∈ l /\ p = py_lower x)
           /\ (forall p, p ∈ phrases -> lowercased p /\ contains_upper p = false)
           /\ NoDup (elements phrases).
Proof.
  split; [reflexivity|]. split; [reflexivity|].
  apply (C6_normalization (loads_only scenario_json scenario_value) scenario_json).
  - reflexivity.
  - reflexivity.
Defined.

(** The validator lowercases and does not trim: the phrase " Hurry " of a
    well-shaped input comes out as " hurry ", white space included. *)
Lemma C6_counterexample :
  expected_shape untrimmed_value = true
  /\ parse_dictionaries (loads_only untrimmed_json untrimmed_value) untrimmed_json
     = Continue {[ "urgency_marketing" := {[ " hurry " ]} ]}
  /\ ~ trimmed " hurry ".
Proof.
  split; [reflexivity|]. split.
  - vm_compute. reflexivity.
  - unfold trimmed. vm_compute. discriminate.
Qed.

Section Claim7.
Variable json_loads : string -> option pyval.
Context `{SetIter}.


End Claim7.



(** ** The whole run *)

Section Claim2.
Variable json_loads : string -> option pyval.
Context `{SetIter}.

(** The flag set at position [i] is the one of the record at position
    [i]. *)
Lemma classify_column_aligned (column : list pyval) (d : gmap string (gset string)) :
  exists flagsets,
    classify_column column d = Ret flagsets
    /\ length flagsets = length column
    /\ forall i record,
         column !! i = Some record ->
         exists fs, flagsets !! i = Some fs /\ classify record d = Ret fs.
Proof.
  exists (map (fun r => flags_of r d) column).
  split; [apply classify_column_spec|]. split; [apply length_map|].
  intros i record Hi. exists (flags_of record d). split; [|apply classify_spec].
  change (map (fun r => flags_of r d) column) with ((fun r => flags_of r d) <$> column).
  now rewrite list_lookup_fmap, Hi.
Qed.

(** C2.  When the dictionary text is the JSON object with
    urgency_marketing: limited time, hurry and exclusive_marketing: vip,
    exclusive, and the chosen column holds "Limited Time Offer!", "Join
    our VIP club", "Nothing special here", the validator returns that
    dictionary and the run ends with the three flag sets (true, false),
    (false, true), (false, false), the i-th flag set being the one of the
    i-th record. *)
Theorem C2_end_to_end (dict_json : string) (df : gmap string (list pyval))
    (statement_col : string) :
  json_loads dict_json = Some scenario_value ->
  df !! statement_col = Some scenario_records ->
  parse_dictionaries json_loads dict_json = Continue scenario_dictionary
  /\ classify_column scenario_records scenario_dictionary = Ret scenario_flags
  /\ run json_loads dict_json (Uploaded (Some df)) statement_col
     = Classified scenario_flags
  /\ forall i record,
       scenario_records !! i = Some record ->
       exists fs,
         scenario_flags !! i = Some fs
         /\ classify record scenario_dictionary = Ret fs.
Proof.
  intros Hload Hcol.
  assert (Hparse : parse_dictionaries json_loads dict_json = Continue scenario_dictionary).
  { unfold parse_dictionaries. rewrite Hload. vm_compute. reflexivity. }
  assert (Hflags : classify_column scenario_records scenario_dictionary
                   = Ret scenario_flags).
  { rewrite classify_column_spec. vm_compute. reflexivity. }
  split; [exact Hparse|]. split; [exact Hflags|]. split.
  - unfold run. now rewrite Hparse, Hcol, Hflags.
  - intros i record Hi.
    destruct (classify_column_aligned scenario_records scenario_dictionary)
      as (flagsets & Hret & _ & Haligned).
    rewrite Hflags in Hret. injection Hret as <-. now apply Haligned.
Qed.

End Claim2.

(** C2 with a [json.loads] that reads the scenario's text and a table whose
    column Statement holds the scenario's records. *)
Lemma C2_witness :
  loads_only scenario_json scenario_value scenario_json = Some scenario_value
  /\ ({[ "Statement" := scenario_records ]} : gmap string (list pyval)) !! "Statement"
     = Some scenario_records
  /\ run (H := elements_iter) (loads_only scenario_json scenario_value) scenario_json
       (Uploaded (Some {[ "Statement" := scenario_records ]})) "Statement"
     = Classified scenario_flags.
Proof.
  split; [reflexivity|]. split; [reflexivity|].
  apply (C2_end_to_end (loads_only scenario_json scenario_value) (H := elements_iter)
           scenario_json {[ "Statement" := scenario_records ]} "Statement").
  - reflexivity.
  - reflexivity.
Defined.


(** * Further properties of the code *)

Import Words.

(** ** Helper facts *)

Lemma xorb_true_negb (a b : bool) : xorb a b = true <-> a = negb b.
Proof. destruct a, b; cbn; split; congruence. Qed.

Lemma string_length_app (a b : string) :
  String.length (a +:+ b) = String.length a + String.length b.
Proof.
  induction a as [|x a IH]; [reflexivity|].
  rewrite string_app_cons. cbn [String.length]. now rewrite IH.
Qed.

Lemma py_lower_length (s : string) : String.length (py_lower s) = String.length s.
Proof. induction s as [|c s IH]; [reflexivity|]. cbn. now rewrite IH. Qed.



Lemma starts_with_word_app (p s : string) :
  p <> "" -> starts_with_word (p +:+ s) = starts_with_word p.
Proof. destruct p; [congruence|reflexivity]. Qed.

Lemma ends_with_word_app (s p : string) :
  p <> "" -> ends_with_word (s +:+ p) = ends_with_word p.
Proof.
  intros Hp. unfold ends_with_word. rewrite last_of_app.
  destruct p; [congruence|reflexivity].
Qed.

(** The general form of the boundary conditions, for a phrase that is not
    empty: the neighbour of each end is of the other class than that end. *)
Lemma phrase_matches_neighbours (text p : string) :
  p <> "" ->
  phrase_matches text p = true <->
  exists pre post,
    text = pre +:+ p +:+ post
    /\ ends_with_word pre = negb (starts_with_word p)
    /\ starts_with_word post = negb (ends_with_word p).
Proof.
  intros Hp. rewrite phrase_matches_spec.
  assert (H1 : forall pre post,
    Re.at_boundary (last_of None pre) (p +:+ post) = true
    <-> ends_with_word pre = negb (starts_with_word p)).
  { intros pre post. unfold Re.at_boundary. rewrite xorb_true_negb.
    change (Re.word_here (p +:+ post)) with (starts_with_word (p +:+ post)).
    now rewrite starts_with_word_app. }
  assert (H2 : forall pre post,
    Re.at_boundary (last_of None (pre +:+ p)) post = true
    <-> starts_with_word post = negb (ends_with_word p)).
  { intros pre post. unfold Re.at_boundary. rewrite xorb_true_negb.
    change (Re.word_before (last_of None (pre +:+ p))) with (ends_with_word (pre +:+ p)).
    rewrite ends_with_word_app by exact Hp. unfold starts_with_word.
    destruct (ends_with_word p), (Re.word_here post); cbn; split; congruence. }
  split; intros (pre & post & Heq & Hb1 & Hb2); exists pre, post;
    (split; [exact Heq|]); split.
  - now apply (H1 pre post).
  - now apply (H2 pre post).
  - now apply (H1 pre post).
  - now apply (H2 pre post).
Qed.

Lemma flag_singleton (text p : string) : flag text {[ p ]} = phrase_matches text p.
Proof. unfold flag. rewrite elements_singleton. cbn. apply orb_false_r. Qed.

Lemma flags_of_singleton (text : pyval) (cat : string) (phrases : gset string) :
  flags_of text {[ cat := phrases ]}
  = {[ cat := flag (py_lower (py_str text)) phrases ]}.
Proof. unfold flags_of. apply map_fmap_singleton. Qed.

Lemma flag_union (text : string) (A B : gset string) :
  flag text (A ∪ B) = flag text A || flag text B.
Proof.
  apply eq_true_iff_eq. rewrite orb_true_iff, !flag_true. split.
  - intros (p & [Hp|Hp]%elem_of_union & Hm); [left|right]; now exists p.
  - intros [(p & Hp & Hm)|(p & Hp & Hm)]; exists p; (split; [|exact Hm]);
      apply elem_of_union; auto.
Qed.

Lemma string_length_zero (s : string) : String.length s = 0 -> s = "".
Proof. destruct s; [reflexivity|discriminate]. Qed.

Lemma is_word_lower (c : ascii) : Char.is_word (Char.lower c) = Char.is_word c.
Proof. each_char c. Qed.

Lemma contains_word_lower (s : string) : contains_word (py_lower s) = contains_word s.
Proof.
  induction s as [|c s IH]; [reflexivity|].
  cbn [py_lower contains_word]. now rewrite is_word_lower, IH.
Qed.

Lemma contains_word_app (a b : string) :
  contains_word (a +:+ b) = contains_word a || contains_word b.
Proof.
  induction a as [|x a IH]; [reflexivity|].
  rewrite string_app_cons. cbn [contains_word]. now rewrite IH, orb_assoc.
Qed.

Lemma starts_with_word_contains (s : string) :
  starts_with_word s = true -> contains_word s = true.
Proof. destruct s as [|c s]; [discriminate|]. cbn. now intros ->. Qed.

Lemma ends_with_word_contains (s : string) :
  ends_with_word s = true -> contains_word s = true.
Proof.
  unfold ends_with_word.
  assert (G : forall prev, Re.word_before (last_of prev s) = true ->
                           Re.word_before prev = true \/ contains_word s = true).
  { induction s as [|c s IH]; intros prev; cbn [last_of contains_word]; [auto|].
    intros Hw. destruct (IH _ Hw) as [Hc|Hs].
    - cbn in Hc. rewrite Hc. auto.
    - rewrite Hs, orb_true_r. auto. }
  intros Hw. destruct (G None Hw) as [Hn|Hs]; [discriminate|exact Hs].
Qed.

(** A match needs a boundary, and a boundary needs a word character. *)
Lemma phrase_matches_contains_word (text p : string) :
  phrase_matches text p = true -> contains_word text = true.
Proof.
  intros (pre & post & -> & Hb & _)%phrase_matches_spec.
  unfold Re.at_boundary in Hb. rewrite !contains_word_app.
  destruct (Re.word_before (last_of None pre)) eqn:Hpre.
  - now rewrite (ends_with_word_contains pre Hpre).
  - cbn in Hb. change (starts_with_word (p +:+ post) = true) in Hb.
    apply starts_with_word_contains in Hb. rewrite contains_word_app in Hb.
    rewrite Hb. apply orb_true_r.
Qed.

(** The pattern of the empty phrase is two boundaries at one place. *)
Lemma search_empty_phrase (prev : option ascii) (text : string) :
  Re.search_from [Re.AtBoundary; Re.AtBoundary] prev text
  = Re.word_before prev || contains_word text.
Proof.
  revert prev. induction text as [|c text IH]; intros prev.
  - cbn. unfold Re.at_boundary. cbn. now destruct (Re.word_before prev).
  - cbn [Re.search_from Re.match_here contains_word]. rewrite IH.
    unfold Re.at_boundary. cbn [Re.word_here Re.word_before].
    now destruct (Re.word_before prev), (Char.is_word c).
Qed.

Lemma phrase_matches_empty_phrase (text : string) :
  phrase_matches text "" = contains_word text.
Proof. unfold phrase_matches. cbn [literals app]. apply search_empty_phrase. Qed.


Lemma phrase_matches_itself (p : string) :
  phrase_matches (py_lower p) p
  = bool_decide (py_lower p = p) && starts_with_word p && ends_with_word p.
Proof.
  destruct (decide (p = "")) as [->|Hp]; [reflexivity|].
  apply eq_true_iff_eq. rewrite !andb_true_iff, bool_decide_eq_true.
  rewrite (phrase_matches_neighbours _ _ Hp). split.
  - intros (pre & post & Heq & Hb1 & Hb2).
    assert (Hlen : String.length pre = 0 /\ String.length post = 0).
    { apply (f_equal String.length) in Heq.
      rewrite py_lower_length, !string_length_app in Heq. lia. }
    destruct Hlen as [Hpre%string_length_zero Hpost%string_length_zero]. subst pre post.
    rewrite string_app_nil_l, string_app_nil_r in Heq.
    cbn in Hb1, Hb2. split; [split; [exact Heq|]|].
    + now destruct (starts_with_word p).
    + now destruct (ends_with_word p).
  - intros [[Heq Hs] He]. exists "", "".
    rewrite string_app_nil_l, string_app_nil_r, Hs, He. auto.
Qed.

Section MatcherExtras.
Context `{SetIter}.

(** X1.  For a category without the empty phrase, the flag is true exactly
    when some phrase of the category stands in the lowercased text with,
    before its first character, a character of the other class than that
    first character (word character against anything else, the start of
    the text counting as no word character), and likewise after its last
    character. *)
Theorem X1_match_neighbours (text : pyval) (dictionaries : gmap string (gset string))
    (cat : string) (phrases : gset string) :
  dictionaries !! cat = Some phrases ->
  "" ∉ phrases ->
  exists fs b,
    classify text dictionaries = Ret fs
    /\ fs !! cat = Some b
    /\ (b = true <->
        exists p pre post,
          p ∈ phrases
          /\ py_lower (py_str text) = pre +:+ p +:+ post
          /\ ends_with_word pre = negb (starts_with_word p)
          /\ starts_with_word post = negb (ends_with_word p)).
Proof.
  intros Hcat Hne.
  exists (flags_of text dictionaries), (flag (py_lower (py_str text)) phrases).
  split; [apply classify_spec|]. split.
  { unfold flags_of. now rewrite lookup_fmap, Hcat. }
  rewrite flag_true. split.
  - intros (p & Hin & Hm).
    assert (Hp : p <> "") by (intros ->; contradiction).
    apply (phrase_matches_neighbours _ _ Hp) in Hm as (pre & post & Hm).
    now exists p, pre, post.
  - intros (p & pre & post & Hin & Hm). exists p. split; [exact Hin|].
    assert (Hp : p <> "") by (intros ->; contradiction).
    apply (phrase_matches_neighbours _ _ Hp). now exists pre, post.
Qed.

(** X2.  A text that consists of a phrase and nothing else gets that
    phrase's flag exactly when the phrase is in lower case and begins and
    ends with a word character. *)
Theorem X2_phrase_finds_itself (cat p : string) :
  classify (PStr p) {[ cat := {[ p ]} ]}
  = Ret {[ cat := bool_decide (py_lower p = p) && starts_with_word p && ends_with_word p ]}.
Proof.
  rewrite classify_spec, flags_of_singleton, flag_singleton. cbn [py_str].
  now rewrite phrase_matches_itself.
Qed.

(** X3.  A category that holds the empty phrase is flagged for exactly the
    records whose text has a word character. *)
Theorem X3_empty_phrase (text : pyval) (dictionaries : gmap string (gset string))
    (cat : string) (phrases : gset string) :
  dictionaries !! cat = Some phrases ->
  "" ∈ phrases ->
  exists fs,
    classify text dictionaries = Ret fs
    /\ fs !! cat = Some (contains_word (py_str text)).
Proof.
  intros Hcat Hin. exists (flags_of text dictionaries).
  split; [apply classify_spec|]. unfold flags_of. rewrite lookup_fmap, Hcat. cbn.
  f_equal. rewrite <- contains_word_lower. apply eq_true_iff_eq. rewrite flag_true. split.
  - intros (p & _ & Hm). now apply phrase_matches_contains_word in Hm.
  - intros Hw. exists "". split; [exact Hin|]. now rewrite phrase_matches_empty_phrase.
Qed.

(** X4.  A record whose text has no word character (no letter, digit or
    underscore) gets every flag false, whatever the dictionary. *)
Theorem X4_no_word_character (text : pyval) (dictionaries : gmap string (gset string)) :
  contains_word (py_str text) = false ->
  classify text dictionaries = Ret ((fun _ => false) <$> dictionaries).
Proof.
  intros Hw. rewrite classify_spec. unfold flags_of. f_equal.
  apply map_fmap_ext. intros cat phrases _. apply not_true_is_false.
  intros (p & _ & Hm)%flag_true. apply phrase_matches_contains_word in Hm.
  rewrite contains_word_lower in Hm. congruence.
Qed.


(** X6.  The flag of a category whose phrases are those of two sets
    together is the disjunction of the flags the two sets get. *)
Theorem X6_union_of_phrase_sets (text : pyval) (dictionaries : gmap string (gset string))
    (cat : string) (A B : gset string) :
  exists fsA fsB fsAB a b,
    classify text (<[cat := A]> dictionaries) = Ret fsA
    /\ classify text (<[cat := B]> dictionaries) = Ret fsB
    /\ classify text (<[cat := A ∪ B]> dictionaries) = Ret fsAB
    /\ fsA !! cat = Some a /\ fsB !! cat = Some b
    /\ fsAB !! cat = Some (a || b).
Proof.
  exists (flags_of text (<[cat := A]> dictionaries)),
         (flags_of text (<[cat := B]> dictionaries)),
         (flags_of text (<[cat := A ∪ B]> dictionaries)),
         (flag (py_lower (py_str text)) A), (flag (py_lower (py_str text)) B).
  rewrite !classify_spec. unfold flags_of.
  rewrite !lookup_fmap, !lookup_insert_eq. cbn. rewrite flag_union. auto 10.
Qed.

(** X7.  The flag of a category depends on the phrases of that category
    only: two dictionaries that agree on a category give it the same
    flag. *)
Theorem X7_categories_independent (text : pyval)
    (d1 d2 : gmap string (gset string)) (cat : string) :
  d1 !! cat = d2 !! cat ->
  exists fs1 fs2,
    classify text d1 = Ret fs1 /\ classify text d2 = Ret fs2
    /\ fs1 !! cat = fs2 !! cat.
Proof.
  intros Heq. exists (flags_of text d1), (flags_of text d2).
  rewrite !classify_spec. unfold flags_of. now rewrite !lookup_fmap, Heq.
Qed.

End MatcherExtras.

(** ** Where a match lies in the text as it was written *)





(** A phrase that continues another one after a boundary is found only
    where the shorter one is found. *)
Lemma phrase_matches_extension (t q r : string) :
  ends_with_word q = true -> starts_with_word r = false ->
  phrase_matches t (q +:+ r) = true -> phrase_matches t q = true.
Proof.
  intros Hq Hr. destruct (decide (r = "")) as [->|Hne].
  { now rewrite string_app_nil_r. }
  assert (Hqne : q <> "") by (intros ->; discriminate).
  rewrite !phrase_matches_spec.
  intros (pre & post & -> & Hb1 & _). exists pre, (r +:+ post).
  rewrite string_app_assoc in *. split; [reflexivity|]. split; [exact Hb1|].
  unfold Re.at_boundary.
  change (Re.word_before (last_of None (pre +:+ q))) with (ends_with_word (pre +:+ q)).
  change (Re.word_here (r +:+ post)) with (starts_with_word (r +:+ post)).
  now rewrite (ends_with_word_app _ _ Hqne), (starts_with_word_app _ _ Hne), Hq, Hr.
Qed.

(** The phrases of the default dictionaries are in lower case and begin and
    end with a word character. *)
Lemma default_phrases_plain (cat : string) (phrases : gset string) (p : string) :
  get_default_dictionaries !! cat = Some phrases ->
  p ∈ phrases ->
  py_lower p = p /\ starts_with_word p = true /\ ends_with_word p = true.
Proof.
  intros Hcat Hin.
  assert (Hall : forallb
            (fun kv => forallb (fun p => bool_decide (py_lower p = p)
                                         && starts_with_word p && ends_with_word p)
                               (elements (snd kv)))
            (map_to_list get_default_dictionaries) = true)
    by (vm_compute; reflexivity).
  rewrite forallb_forall in Hall.
  apply elem_of_map_to_list, list_elem_of_In, Hall in Hcat. cbn [snd] in Hcat.
  rewrite forallb_forall in Hcat.
  apply elem_of_elements, list_elem_of_In, Hcat in Hin.
  apply andb_true_iff in Hin as [[Hl Hs]%andb_true_iff He].
  apply bool_decide_eq_true in Hl. auto.
Qed.

Section MatcherExtras2.
Context `{SetIter}.


(** X9.  A phrase that continues a phrase of the category after a word
    boundary (the shorter phrase ends with a word character and what
    follows it begins with none) is redundant: adding it to the category
    changes no flag of any record. *)
Theorem X9_longer_phrase_redundant (text : pyval)
    (dictionaries : gmap string (gset string)) (cat : string) (phrases : gset string)
    (q r : string) :
  dictionaries !! cat = Some phrases ->
  q ∈ phrases ->
  ends_with_word q = true ->
  starts_with_word r = false ->
  classify text (<[cat := phrases ∪ {[ q +:+ r ]}]> dictionaries)
  = classify text dictionaries.
Proof.
  intros Hcat Hq Hend Hr. rewrite !classify_spec. f_equal. unfold flags_of.
  rewrite fmap_insert. apply insert_id. rewrite lookup_fmap, Hcat. cbn. f_equal.
  rewrite flag_union, flag_singleton.
  destruct (phrase_matches (py_lower (py_str text)) (q +:+ r)) eqn:Hm;
    [|now rewrite orb_false_r].
  apply (phrase_matches_extension _ _ _ Hend Hr) in Hm.
  rewrite orb_true_r. apply flag_true. now exists q.
Qed.


End MatcherExtras2.

(** ** From the dictionaries to the dictionary text and back *)

Lemma py_sorted_Permutation (xs : list string) : py_sorted xs ≡ₚ xs.
Proof. apply merge_sort_Permutation. Qed.

Lemma phrases_of_sorted (iter : list string) (phrases : gset string) :
  iter ≡ₚ elements phrases ->
  (forall p, p ∈ phrases -> py_lower p = p) ->
  phrases_of (PList (map PStr (py_sorted iter))) = phrases.
Proof.
  intros Hperm Hlow. unfold phrases_of, elements_of. cbn [py_iter].
  rewrite map_map.
  assert (Hid : map (fun x => py_lower (py_str (PStr x))) (py_sorted iter) = py_sorted iter).
  { rewrite <- (map_id (py_sorted iter)) at 2. apply map_ext_in. intros p Hp. cbn [py_str].
    apply Hlow, elem_of_elements. rewrite <- Hperm, <- (py_sorted_Permutation iter).
    now apply list_elem_of_In. }
  rewrite Hid, (py_sorted_Permutation iter), Hperm. apply list_to_set_elements_L.
Qed.

Lemma sorted_lists_accepted `{SetIter} (d : gmap string (gset string)) :
  forallb (fun kv => iterable (snd kv))
    (map (fun kv => (fst kv, PList (map PStr (py_sorted (set_iter (snd kv))))))
         (map_to_list d)) = true.
Proof. rewrite forallb_forall. intros kv (x & <- & _)%in_map_iff. reflexivity. Qed.

Lemma normalize_sorted_lists `{SetIter} (d : gmap string (gset string)) :
  (forall cat phrases p, d !! cat = Some phrases -> p ∈ phrases -> py_lower p = p) ->
  normalize (sorted_lists d) = Ret d.
Proof.
  intros Hlow. unfold sorted_lists, normalize. cbn [py_items bind].
  pose proof (sorted_lists_accepted d) as Hacc.
  pose (g := fun phrases : gset string => PList (map PStr (py_sorted (set_iter phrases)))).
  assert (Hitems : map (fun kv : string * gset string =>
                          (fst kv, PList (map PStr (py_sorted (set_iter (snd kv))))))
                       (map_to_list d)
                   = prod_map id g <$> map_to_list d).
  { apply map_ext. now intros [k v]. }
  rewrite Hitems in *.
  rewrite (normalize_items_returns _ _ Hacc).
  rewrite (right_id_L ∅ (∪)). f_equal. unfold dict_of_items.
  rewrite <- (list_to_map_proper (prod_map id g <$> map_to_list d)
                                 (reverse (prod_map id g <$> map_to_list d))).
  - rewrite list_to_map_fmap, list_to_map_to_list, <- map_fmap_compose.
    rewrite <- (map_fmap_id d) at 2. apply map_fmap_ext. intros cat phrases Hcat.
    cbn. apply phrases_of_sorted; [apply set_iter_perm|]. intros p. now apply (Hlow cat).
  - rewrite <- list_fmap_compose.
    assert (Hfst : (fst ∘ prod_map id g <$> map_to_list d) = (map_to_list d).*1).
    { apply list_fmap_ext. intros i [k v] _. reflexivity. }
    rewrite Hfst. apply NoDup_fst_map_to_list.
  - symmetry. apply reverse_Permutation.
Qed.

Lemma normalize_lowercased (raw : pyval) (d : gmap string (gset string)) :
  normalize raw = Ret d ->
  forall cat phrases p, d !! cat = Some phrases -> p ∈ phrases -> py_lower p = p.
Proof.
  intros Hn cat phrases p Hcat Hin.
  destruct (accepted raw) eqn:Hacc.
  - destruct (normalize_accepted _ Hacc) as (items & _ & Heq).
    rewrite Heq in Hn. injection Hn as <-. rewrite lookup_fmap in Hcat.
    destruct (dict_of_items items !! cat) as [v|]; [|discriminate].
    cbn in Hcat. injection Hcat as <-. now apply (phrases_of_lowercased v).
  - destruct (normalize_not_accepted _ Hacc) as (e & Heq). congruence.
Qed.

Lemma parse_dictionaries_Continue (json_loads : string -> option pyval)
    (json_str : string) (d : gmap string (gset string)) :
  parse_dictionaries json_loads json_str = Continue d <->
  exists raw, json_loads json_str = Some raw /\ normalize raw = Ret d.
Proof.
  unfold parse_dictionaries. destruct (json_loads json_str) as [raw|]; cbn [bind].
  - destruct (normalize raw) as [d'|e] eqn:Hn.
    + split; [intros [= <-]; now exists raw|intros (raw' & [= <-] & Hr); congruence].
    + split; [discriminate|intros (raw' & [= <-] & Hr); congruence].
  - split; [discriminate|intros (raw' & Hr & _); discriminate].
Qed.

(** The validator in closed form. *)
Lemma normalize_closed_form (raw : pyval) :
  normalize raw
  = match raw with
    | PDict items =>
        if forallb (fun kv => iterable (snd kv)) items
        then Ret (phrases_of <$> dict_of_items items)
        else Raise TypeError
    | _ => Raise AttributeError
    end.
Proof.
  destruct raw as [| | | | | |items]; try reflexivity.
  unfold normalize. cbn [py_items bind].
  destruct (forallb (fun kv => iterable (snd kv)) items) eqn:Hall.
  - rewrite (normalize_items_returns _ _ Hall). now rewrite (right_id_L ∅ (∪)).
  - now apply normalize_items_raises.
Qed.

Section ValidatorExtras.
Variable json_loads : string -> option pyval.
Variable json_dumps : pyval -> string.
Context `{SetIter}.

(** X11.  Round trip.  A dictionary whose phrases are in lower case,
    written out as line 78 does (every phrase set as a sorted list) and
    dumped, is read back by the validator as the same dictionary, provided
    [json.loads] undoes [json.dumps] on that value. *)
Theorem X11_dictionary_round_trip (d : gmap string (gset string)) :
  json_loads (json_dumps (sorted_lists d)) = Some (sorted_lists d) ->
  (forall cat phrases p, d !! cat = Some phrases -> p ∈ phrases -> py_lower p = p) ->
  parse_dictionaries json_loads (json_dumps (sorted_lists d)) = Continue d.
Proof.
  intros Hload Hlow. apply parse_dictionaries_Continue.
  exists (sorted_lists d). split; [exact Hload|]. now apply normalize_sorted_lists.
Qed.

(** X12.  The value line 78 builds has one entry per category, and the
    list of an entry holds the phrases of the category, each once, in
    ascending order. *)
Theorem X12_sorted_lists (d : gmap string (gset string)) :
  exists items,
    sorted_lists d = PDict items
    /\ NoDup (map fst items)
    /\ (forall cat, cat ∈ map fst items <-> is_Some (d !! cat))
    /\ forall cat v,
         (cat, v) ∈ items ->
         exists phrases l,
           d !! cat = Some phrases /\ v = PList (map PStr l)
           /\ StronglySorted String.le l /\ NoDup l
           /\ forall p, p ∈ l <-> p ∈ phrases.
Proof.
  eexists. split; [reflexivity|].
  assert (Hfst : map fst (map (fun kv : string * gset string =>
                   (fst kv, PList (map PStr (py_sorted (set_iter (snd kv))))))
                   (map_to_list d)) = (map_to_list d).*1).
  { rewrite map_map. reflexivity. }
  split; [|split].
  - rewrite Hfst. apply NoDup_fst_map_to_list.
  - intros cat. rewrite Hfst, list_elem_of_fmap. split.
    + intros ([k v] & -> & Hin%elem_of_map_to_list). eauto.
    + intros [v Hv]. exists (cat, v). split; [reflexivity|]. now apply elem_of_map_to_list.
  - intros cat v Hin. apply list_elem_of_In, in_map_iff in Hin.
    destruct Hin as ([k phrases] & Heq & Hin). cbn [fst snd] in Heq.
    injection Heq as <- <-.
    apply list_elem_of_In, elem_of_map_to_list in Hin.
    exists phrases, (py_sorted (set_iter phrases)).
    split; [exact Hin|]. split; [reflexivity|]. split; [|split].
    + apply StronglySorted_merge_sort; apply _.
    + rewrite (py_sorted_Permutation _), set_iter_perm. apply NoDup_elements.
    + intros p. rewrite (py_sorted_Permutation _), set_iter_perm.
      apply elem_of_elements.
Qed.

(** X13.  The first run.  With the dictionary text as lines 76-81 set it,
    the validator returns the default dictionaries, and an uploaded table
    with the chosen column is classified with them, provided [json.loads]
    undoes [json.dumps] on the value dumped. *)
Theorem X13_first_run (df : gmap string (list pyval)) (statement_col : string)
    (column : list pyval) :
  json_loads (initial_dictionary_json json_dumps)
    = Some (sorted_lists get_default_dictionaries) ->
  df !! statement_col = Some column ->
  parse_dictionaries json_loads (initial_dictionary_json json_dumps)
    = Continue get_default_dictionaries
  /\ exists flagsets,
       classify_column column get_default_dictionaries = Ret flagsets
       /\ run json_loads (initial_dictionary_json json_dumps) (Uploaded (Some df))
            statement_col = Classified flagsets.
Proof.
  intros Hload Hcol.
  assert (Hparse : parse_dictionaries json_loads (initial_dictionary_json json_dumps)
                   = Continue get_default_dictionaries).
  { apply parse_dictionaries_Continue. exists (sorted_lists get_default_dictionaries).
    split; [exact Hload|]. apply normalize_sorted_lists.
    intros cat phrases p Hcat Hin. now apply (default_phrases_plain cat phrases p). }
  split; [exact Hparse|]. eexists. split; [apply classify_column_spec|].
  unfold run. now rewrite Hparse, Hcol, classify_column_spec.
Qed.

(** X14.  What the validator returns is stable: written out as line 78
    does and validated again, it comes back unchanged. *)
Theorem X14_validated_dictionary_stable (json_str : string)
    (d : gmap string (gset string)) :
  parse_dictionaries json_loads json_str = Continue d ->
  json_loads (json_dumps (sorted_lists d)) = Some (sorted_lists d) ->
  parse_dictionaries json_loads (json_dumps (sorted_lists d)) = Continue d.
Proof.
  intros (raw & _ & Hn)%parse_dictionaries_Continue Hload.
  apply parse_dictionaries_Continue. exists (sorted_lists d).
  split; [exact Hload|]. apply normalize_sorted_lists. now apply (normalize_lowercased raw).
Qed.

(** X15.  The validator in closed form.  When [json.loads] raises, the
    message carries its error; a value that is not an object gives the
    error of [raw.items()]; an object with a value that cannot be iterated
    gives the error of the iteration, whatever the other entries are; and
    otherwise the dictionary maps each key to the lowercased strings of the
    elements of its value, the last entry of a key counting. *)
Theorem X15_validator_closed_form (json_str : string) :
  parse_dictionaries json_loads json_str
  = match json_loads json_str with
    | None => Stop (InvalidJSON JSONDecodeError)
    | Some (PDict items) =>
        if forallb (fun kv => iterable (snd kv)) items
        then Continue (phrases_of <$> dict_of_items items)
        else Stop (InvalidJSON TypeError)
    | Some _ => Stop (InvalidJSON AttributeError)
    end.
Proof.
  unfold parse_dictionaries. destruct (json_loads json_str) as [raw|]; [|reflexivity].
  cbn [bind]. rewrite normalize_closed_form.
  destruct raw as [| | | | | |items]; try reflexivity.
  now destruct (forallb (fun kv => iterable (snd kv)) items).
Qed.

End ValidatorExtras.

Lemma phrases_of_string (s p : string) :
  p ∈ phrases_of (PStr s) <->
  exists c, c ∈ String.list_ascii_of_string s /\ p = String (Char.lower c) "".
Proof.
  unfold phrases_of, elements_of. cbn [py_iter].
  rewrite elem_of_list_to_set, map_map. cbn [py_str py_lower].
  rewrite list_elem_of_In, in_map_iff. split.
  - intros (c & <- & Hc). exists c. split; [now apply list_elem_of_In|reflexivity].
  - intros (c & Hc & ->). exists c. split; [reflexivity|now apply list_elem_of_In].
Qed.

Lemma phrases_of_object (entries : list (string * pyval)) (p : string) :
  p ∈ phrases_of (PDict entries) <->
  exists k, k ∈ map fst entries /\ p = py_lower k.
Proof.
  unfold phrases_of, elements_of. cbn [py_iter].
  rewrite elem_of_list_to_set, map_map. cbn [py_str].
  rewrite list_elem_of_In, in_map_iff. split.
  - intros ([k v] & <- & Hin). exists k. split; [|reflexivity].
    apply list_elem_of_In, in_map_iff. now exists (k, v).
  - intros (k & Hk & ->). apply list_elem_of_In, in_map_iff in Hk.
    destruct Hk as ([k' v] & <- & Hin). now exists (k', v).
Qed.

Section ValidatorExtras2.
Variable json_loads : string -> option pyval.
Context `{SetIter}.

(** X16.  An accepted object may have values that are no lists.  A value
    that is a string gives its category one phrase per character of the
    string, lowercased; a value that is an object gives its category the
    lowercased keys of that object. *)
Theorem X16_string_and_object_values (json_str : string)
    (items : list (string * pyval)) (cat : string) :
  json_loads json_str = Some (PDict items) ->
  accepted (PDict items) = true ->
  exists d,
    parse_dictionaries json_loads json_str = Continue d
    /\ (forall s,
          dict_of_items items !! cat = Some (PStr s) ->
          exists phrases,
            d !! cat = Some phrases
            /\ forall p, p ∈ phrases <->
                 exists c, c ∈ String.list_ascii_of_string s
                           /\ p = String (Char.lower c) "")
    /\ (forall entries,
          dict_of_items items !! cat = Some (PDict entries) ->
          exists phrases,
            d !! cat = Some phrases
            /\ forall p, p ∈ phrases <-> exists k, k ∈ map fst entries /\ p = py_lower k).
Proof.
  intros Hload Hacc. exists (phrases_of <$> dict_of_items items).
  split; [now apply parse_dictionaries_accepted|]. split.
  - intros s Hs. exists (phrases_of (PStr s)). rewrite lookup_fmap, Hs.
    split; [reflexivity|]. apply phrases_of_string.
  - intros entries He. exists (phrases_of (PDict entries)). rewrite lookup_fmap, He.
    split; [reflexivity|]. apply phrases_of_object.
Qed.


(** X18.  The flag sets of a column made of two parts are those of the
    first part followed by those of the second: the rows are classified
    one by one, none depending on another. *)
Theorem X18_columns_concatenate (first second : list pyval)
    (d : gmap string (gset string)) :
  exists flags1 flags2,
    classify_column first d = Ret flags1
    /\ classify_column second d = Ret flags2
    /\ classify_column (first ++ second) d = Ret (flags1 ++ flags2).
Proof.
  exists (map (fun r => flags_of r d) first), (map (fun r => flags_of r d) second).
  rewrite !classify_column_spec. now rewrite map_app.
Qed.

(** X20.  A run ends with flag sets only when the dictionary text was
    accepted, a table was uploaded and read, and it has the chosen column;
    there is then one flag set per row, and every flag set has exactly the
    categories of the dictionary, so that the table of flags has no empty
    cell. *)
Theorem X20_run_classified (dict_json : string) (uploaded_file : upload)
    (statement_col : string) (flagsets : list (gmap string bool)) :
  run json_loads dict_json uploaded_file statement_col = Classified flagsets ->
  exists d df column,
    parse_dictionaries json_loads dict_json = Continue d
    /\ uploaded_file = Uploaded (Some df)
    /\ df !! statement_col = Some column
    /\ length flagsets = length column
    /\ Forall (fun fs => dom fs = dom d) flagsets.
Proof.
  unfold run. destruct (parse_dictionaries json_loads dict_json) as [d|]; [|discriminate].
  destruct uploaded_file as [|[df|]]; try discriminate.
  destruct (df !! statement_col) as [column|] eqn:Hcol; [|discriminate].
  rewrite classify_column_spec. intros [= <-]. exists d, df, column.
  split; [reflexivity|]. split; [reflexivity|]. split; [exact Hcol|].
  split; [apply length_map|].
  apply Forall_forall. intros fs Hin. apply list_elem_of_In, in_map_iff in Hin.
  destruct Hin as (r & <- & _). unfold flags_of. apply dom_fmap_L.
Qed.

End ValidatorExtras2.

(** ** The progress bar *)

Lemma ceil_succ (s m : nat) :
  0 < s ->
  (m + 1 + (s - 1)) / s
  = (m + (s - 1)) / s + (if (m mod s =? 0)%nat then 1 else 0).
Proof.
  intros Hs.
  pose proof (Nat.div_mod_eq m s) as Hm.
  pose proof (Nat.mod_upper_bound m s ltac:(lia)) as Hr.
  set (q := m / s) in *. set (r := m mod s) in *.
  destruct (Nat.eqb_spec r 0) as [Hz|Hnz].
  - rewrite <- (Nat.div_unique (m + 1 + (s - 1)) s (q + 1) 0) by lia.
    rewrite <- (Nat.div_unique (m + (s - 1)) s q (s - 1)) by lia. lia.
  - rewrite <- (Nat.div_unique (m + 1 + (s - 1)) s (q + 1) r) by lia.
    rewrite <- (Nat.div_unique (m + (s - 1)) s (q + 1) (r - 1)) by lia. lia.
Qed.

(** Among the first [n] row numbers, the multiples of [s] are [n / s],
    rounded up. *)
Lemma count_multiples (s n : nat) :
  0 < s ->
  length (List.filter (fun idx => (idx mod s =? 0)%nat) (seq 0 n)) = (n + (s - 1)) / s.
Proof.
  intros Hs. induction n as [|n IH].
  - cbn. symmetry. apply Nat.div_small. lia.
  - rewrite seq_S, List.filter_app, length_app, IH. cbn [List.filter].
    replace (S n + (s - 1)) with (n + 1 + (s - 1)) by lia.
    rewrite (ceil_succ s n Hs). cbn [Nat.add]. now destruct (n mod s =? 0)%nat.
Qed.

Lemma bar_rows_bound (n : nat) : length (bar_rows n) <= 110.
Proof.
  unfold bar_rows. destruct (Nat.leb_spec 1000 n) as [Hn|Hn]; [|cbn; lia].
  pose proof (Nat.div_mod_eq n 100) as Hd.
  pose proof (Nat.mod_upper_bound n 100 ltac:(lia)) as Hr.
  assert (Hs : 10 <= n / 100) by (apply Nat.div_le_lower_bound; lia).
  rewrite Nat.max_l by lia. rewrite count_multiples by lia.
  apply Nat.lt_succ_r, Nat.Div0.div_lt_upper_bound. lia.
Qed.

Section LoopExtras.
Context `{SetIter}.

(** The loop, with what it shows on the progress bar. *)
Lemma classify_rows_bar (column : list pyval) (d : gmap string (gset string))
    (idx total_rows : nat) (st : loop_state) :
  classify_rows idx total_rows column d st
  = Ret {| flags := flags st ++ map (fun r => flags_of r d) column;
           my_bar := my_bar st
                     ++ (if (1000 <=? total_rows)%nat
                         then List.filter
                                (fun i => (i mod (Nat.max (total_rows / 100) 1) =? 0)%nat)
                                (seq idx (length column))
                         else []) |}.
Proof.
  revert idx st. induction column as [|r column IH]; intros idx st.
  - cbn [classify_rows map length seq List.filter].
    destruct (1000 <=? total_rows)%nat; rewrite !app_nil_r; now destruct st.
  - cbn [classify_rows map length seq List.filter]. rewrite classify_spec. cbn [bind].
    rewrite IH. cbn [flags my_bar]. f_equal. f_equal.
    + now rewrite <- app_assoc.
    + destruct (1000 <=? total_rows)%nat; cbn [andb].
      * destruct (idx mod Nat.max (total_rows / 100) 1 =? 0)%nat;
          [now rewrite <- app_assoc|reflexivity].
      * reflexivity.
Qed.

(** X19.  The progress bar.  The loop updates the bar at no row of a table
    of fewer than 1000 rows; in a longer table it updates it at the rows
    whose number is a multiple of a hundredth of the number of rows (rounded
    down), row 0 first, every such row number being below the number of
    rows, and at most 110 times in all. *)
Theorem X19_progress_bar (column : list pyval) (d : gmap string (gset string)) :
  exists st,
    classify_rows 0 (length column) column d {| flags := []; my_bar := [] |} = Ret st
    /\ my_bar st = bar_rows (length column)
    /\ (length column < 1000 -> my_bar st = [])
    /\ (1000 <= length column -> exists rest, my_bar st = 0 :: rest)
    /\ (forall idx, In idx (my_bar st) ->
          idx < length column /\ idx mod (length column / 100) = 0)
    /\ length (my_bar st) <= 110.
Proof.
  eexists. split; [apply classify_rows_bar|]. cbn [my_bar app].
  fold (bar_rows (length column)).
  split; [reflexivity|]. split; [|split; [|split]].
  - intros Hlt. unfold bar_rows.
    destruct (Nat.leb_spec 1000 (length column)); [lia|reflexivity].
  - intros Hge. unfold bar_rows.
    destruct (Nat.leb_spec 1000 (length column)); [|lia].
    destruct (length column) as [|n] eqn:Hlen; [lia|].
    cbn [seq List.filter]. rewrite Nat.Div0.mod_0_l. cbn. eauto.
  - intros idx Hin. unfold bar_rows in Hin.
    destruct (Nat.leb_spec 1000 (length column)) as [Hge|Hlt]; [|destruct Hin].
    apply filter_In in Hin as [Hseq Hmod]. apply in_seq in Hseq.
    apply Nat.eqb_eq in Hmod.
    assert (Hs : 10 <= length column / 100) by (apply Nat.div_le_lower_bound; lia).
    rewrite Nat.max_l in Hmod by lia. lia.
  - apply bar_rows_bound.
Qed.

End LoopExtras.

(** ** The properties above at concrete inputs *)

(** X1 at the phrase 50%, which ends with a character that is no word
    character. *)
Lemma X1_witness :
  ({[ "urgency_marketing" := {[ "50%" ]} ]} : gmap string (gset string))
    !! "urgency_marketing" = Some {[ "50%" ]}
  /\ ("" ∉ ({[ "50%" ]} : gset string))
  /\ exists fs b,
       classify (PStr "Get 50%off today") {[ "urgency_marketing" := {[ "50%" ]} ]} = Ret fs
       /\ fs !! "urgency_marketing" = Some b
       /\ (b = true <->
           exists p pre post,
             p ∈ ({[ "50%" ]} : gset string)
             /\ py_lower (py_str (PStr "Get 50%off today")) = pre +:+ p +:+ post
             /\ ends_with_word pre = negb (starts_with_word p)
             /\ starts_with_word post = negb (ends_with_word p)).
Proof.
  assert (Hne : "" ∉ ({[ "50%" ]} : gset string)).
  { intros Hin. apply elem_of_singleton in Hin. discriminate. }
  split; [reflexivity|]. split; [exact Hne|].
  apply (X1_match_neighbours (H := elements_iter)); [reflexivity|exact Hne].
Defined.

(** X3 at a category that holds the empty phrase beside another one. *)
Lemma X3_witness :
  ({[ "any" := {[ ""; "vip" ]} ]} : gmap string (gset string)) !! "any" = Some {[ ""; "vip" ]}
  /\ "" ∈ ({[ ""; "vip" ]} : gset string)
  /\ exists fs,
       classify (PStr "?!") {[ "any" := {[ ""; "vip" ]} ]} = Ret fs
       /\ fs !! "any" = Some (contains_word (py_str (PStr "?!"))).
Proof.
  assert (Hin : "" ∈ ({[ ""; "vip" ]} : gset string)).
  { apply elem_of_union. left. now apply elem_of_singleton. }
  split; [reflexivity|]. split; [exact Hin|].
  apply (X3_empty_phrase (H := elements_iter) _ _ _ {[ ""; "vip" ]});
    [reflexivity|exact Hin].
Defined.

(** X4 at a text of punctuation and spaces. *)
Lemma X4_witness :
  contains_word (py_str (PStr "... !!! ???")) = false
  /\ classify (PStr "... !!! ???") get_default_dictionaries
     = Ret ((fun _ => false) <$> get_default_dictionaries).
Proof.
  split; [reflexivity|].
  apply (X4_no_word_character (H := elements_iter)). reflexivity.
Defined.


(** X7 at the default dictionaries with and without the other category. *)
Lemma X7_witness :
  get_default_dictionaries !! "urgency_marketing"
  = delete "exclusive_marketing" get_default_dictionaries !! "urgency_marketing"
  /\ exists fs1 fs2,
       classify (PStr "Hurry, VIP only") get_default_dictionaries = Ret fs1
       /\ classify (PStr "Hurry, VIP only")
            (delete "exclusive_marketing" get_default_dictionaries) = Ret fs2
       /\ fs1 !! "urgency_marketing" = fs2 !! "urgency_marketing".
Proof.
  assert (Heq : get_default_dictionaries !! "urgency_marketing"
                = delete "exclusive_marketing" get_default_dictionaries
                    !! "urgency_marketing").
  { vm_compute. reflexivity. }
  split; [exact Heq|].
  apply (X7_categories_independent (H := elements_iter)). exact Heq.
Defined.


(** X9 at the default phrases limited and limited time. *)
Lemma X9_witness :
  ({[ "urgency_marketing" := {[ "limited"; "hurry" ]} ]} : gmap string (gset string))
    !! "urgency_marketing" = Some {[ "limited"; "hurry" ]}
  /\ "limited" ∈ ({[ "limited"; "hurry" ]} : gset string)
  /\ ends_with_word "limited" = true
  /\ starts_with_word " time" = false
  /\ classify (PStr "A limited time offer")
       (<["urgency_marketing" := {[ "limited"; "hurry" ]} ∪ {[ "limited" +:+ " time" ]}]>
          {[ "urgency_marketing" := {[ "limited"; "hurry" ]} ]})
     = classify (PStr "A limited time offer")
         {[ "urgency_marketing" := {[ "limited"; "hurry" ]} ]}.
Proof.
  assert (Hin : "limited" ∈ ({[ "limited"; "hurry" ]} : gset string)).
  { apply elem_of_union. left. now apply elem_of_singleton. }
  split; [reflexivity|]. split; [exact Hin|]. split; [reflexivity|]. split; [reflexivity|].
  apply (X9_longer_phrase_redundant (H := elements_iter));
    [reflexivity|exact Hin|reflexivity|reflexivity].
Defined.


(** A dump and a load that undo each other on one value. *)
Lemma loads_only_dumps (v : pyval) : loads_only (py_repr v) v (py_repr v) = Some v.
Proof. unfold loads_only. now rewrite String.eqb_refl. Qed.

(** X11 at the default dictionaries. *)
Lemma X11_witness :
  parse_dictionaries
    (loads_only (py_repr (sorted_lists get_default_dictionaries))
                (sorted_lists get_default_dictionaries))
    (py_repr (sorted_lists get_default_dictionaries))
  = Continue get_default_dictionaries.
Proof.
  apply (X11_dictionary_round_trip _ py_repr (H := elements_iter)).
  - apply loads_only_dumps.
  - intros cat phrases p Hcat Hin. now apply (default_phrases_plain cat phrases p).
Defined.

(** X13 with a table of two rows. *)
Lemma X13_witness :
  parse_dictionaries
    (loads_only (py_repr (sorted_lists get_default_dictionaries))
                (sorted_lists get_default_dictionaries))
    (initial_dictionary_json py_repr)
  = Continue get_default_dictionaries
  /\ exists flagsets,
       classify_column [PStr "Hurry!"; PStr "Members only"] get_default_dictionaries
       = Ret flagsets
       /\ run (loads_only (py_repr (sorted_lists get_default_dictionaries))
                          (sorted_lists get_default_dictionaries))
              (initial_dictionary_json py_repr)
              (Uploaded (Some {[ "Statement" := [PStr "Hurry!"; PStr "Members only"] ]}))
              "Statement"
          = Classified flagsets.
Proof.
  apply (X13_first_run _ py_repr (H := elements_iter)).
  - apply loads_only_dumps.
  - reflexivity.
Defined.

(** X14 at the dictionary text of the end-to-end scenario. *)
Lemma X14_witness :
  parse_dictionaries
    (fun s => if String.eqb s scenario_json then Some scenario_value
              else loads_only (py_repr (sorted_lists scenario_dictionary))
                              (sorted_lists scenario_dictionary) s)
    scenario_json = Continue scenario_dictionary
  /\ parse_dictionaries
       (fun s => if String.eqb s scenario_json then Some scenario_value
                 else loads_only (py_repr (sorted_lists scenario_dictionary))
                                 (sorted_lists scenario_dictionary) s)
       (py_repr (sorted_lists scenario_dictionary)) = Continue scenario_dictionary.
Proof.
  assert (Hparse : parse_dictionaries
    (fun s => if String.eqb s scenario_json then Some scenario_value
              else loads_only (py_repr (sorted_lists scenario_dictionary))
                              (sorted_lists scenario_dictionary) s)
    scenario_json = Continue scenario_dictionary).
  { vm_compute. reflexivity. }
  split; [exact Hparse|].
  apply (X14_validated_dictionary_stable _ py_repr (H := elements_iter) scenario_json).
  - exact Hparse.
  - vm_compute. reflexivity.
Defined.

(** X16 at an object with a string value. *)
Lemma X16_witness :
  loads_only string_valued_json string_valued_value string_valued_json
  = Some (PDict [("exclusive_marketing", PStr "vip")])
  /\ accepted (PDict [("exclusive_marketing", PStr "vip")]) = true
  /\ exists d,
       parse_dictionaries (loads_only string_valued_json string_valued_value)
         string_valued_json = Continue d
       /\ (forall s,
             dict_of_items [("exclusive_marketing", PStr "vip")] !! "exclusive_marketing"
             = Some (PStr s) ->
             exists phrases,
               d !! "exclusive_marketing" = Some phrases
               /\ forall p, p ∈ phrases <->
                    exists c, c ∈ String.list_ascii_of_string s
                              /\ p = String (Char.lower c) "")
       /\ (forall entries,
             dict_of_items [("exclusive_marketing", PStr "vip")] !! "exclusive_marketing"
             = Some (PDict entries) ->
             exists phrases,
               d !! "exclusive_marketing" = Some phrases
               /\ forall p, p ∈ phrases <-> exists k, k ∈ map fst entries /\ p = py_lower k).
Proof.
  split; [reflexivity|]. split; [reflexivity|].
  apply (X16_string_and_object_values
           (loads_only string_valued_json string_valued_value) string_valued_json
           [("exclusive_marketing", PStr "vip")] "exclusive_marketing");
    reflexivity.
Defined.


(** X20 at the run of the end-to-end scenario. *)
Lemma X20_witness :
  run (H := elements_iter) (loads_only scenario_json scenario_value) scenario_json
      (Uploaded (Some {[ "Statement" := scenario_records ]})) "Statement"
  = Classified scenario_flags
  /\ exists d df column,
       parse_dictionaries (loads_only scenario_json scenario_value) scenario_json
       = Continue d
       /\ Uploaded (Some {[ "Statement" := scenario_records ]}) = Uploaded (Some df)
       /\ df !! "Statement" = Some column
       /\ length scenario_flags = length column
       /\ Forall (fun fs => dom fs = dom d) scenario_flags.
Proof.
  assert (Hrun : run (H := elements_iter) (loads_only scenario_json scenario_value)
                   scenario_json (Uploaded (Some {[ "Statement" := scenario_records ]}))
                   "Statement" = Classified scenario_flags).
  { vm_compute. reflexivity. }
  split; [exact Hrun|].
  apply (X20_run_classified (loads_only scenario_json scenario_value)
           (H := elements_iter) scenario_json
           (Uploaded (Some {[ "Statement" := scenario_records ]})) "Statement").
  exact Hrun.
Defined.
